(** * simple-todo-list: the task model and the task service

    A shallow embedding of [app/models.py], [app/task_service.py] and the
    handlers of [app/todo_ui.py].

    - Python [str] is [string]; its length is [String.length].
    - [date] and [datetime] are integers (a day number, a number of
      microseconds); only their order and equality matter here.
    - An exception is a [Raise] outcome; the table survives it.
    - Each call of [datetime.utcnow()] is an explicit argument holding the
      value the clock returned at that call. *)

From Stdlib Require Import ZArith List String Ascii Bool Lia.
From Stdlib Require Import Permutation Sorted.
Import ListNotations.
Open Scope Z_scope.

(** ** app/models.py *)

Inductive TaskPriority : Type := LOW | MEDIUM | HIGH | URGENT.

Definition date : Type := Z.
Definition datetime : Type := Z.

(** [class Task(SQLModel, table=True)].  [id] is [None] until the row is
    inserted. *)
Record Task : Type := mkTask {
  id : option Z;
  title : string;
  description : string;
  completed : bool;
  priority : TaskPriority;
  due_date : option date;
  created_at : datetime;
  updated_at : datetime
}.

(** [class TaskCreate(SQLModel, table=False)]. *)
Record TaskCreate : Type := mkTaskCreate {
  c_title : string;
  c_description : string;
  c_priority : TaskPriority;
  c_due_date : option date
}.

(** [class TaskUpdate(SQLModel, table=False)].  Every field is
    [Optional[...] = None]; pydantic also records which fields the caller
    passed.  For each field: [None] is "not passed", [Some None] is "passed
    as None", [Some (Some v)] is "passed as v". *)
Record TaskUpdate : Type := mkTaskUpdate {
  u_title : option (option string);
  u_description : option (option string);
  u_completed : option (option bool);
  u_priority : option (option TaskPriority);
  u_due_date : option (option date)
}.

(** ** Exceptions and the session monad *)

Inductive exn : Type := ValidationError | IntegrityError.

Inductive result (A : Type) : Type :=
| Ok (a : A)
| Raise (e : exn).
Arguments Ok {A} a.
Arguments Raise {A} e.

(** Modelled from the spec: [app/database.py] (the engine, [get_session],
    [reset_db]) is not part of the sources.  The table is the list of its
    rows in insertion order, and the store "assigns a unique
    ascending-friendly id on insert", "never reused after deletion": a
    counter. *)
Record Db : Type := mkDb {
  rows : list Task;
  next_id : Z
}.

Definition empty_db : Db := {| rows := []; next_id := 1 |}.

Definition M (A : Type) : Type := Db -> result A * Db.

Definition ret {A} (a : A) : M A := fun s => (Ok a, s).
Definition raise {A} (e : exn) : M A := fun s => (Raise e, s).
Definition bind {A B} (m : M A) (k : A -> M B) : M B :=
  fun s => match m s with
           | (Ok a, s') => k a s'
           | (Raise e, s') => (Raise e, s')
           end.
Definition lift {A} (r : result A) : M A := fun s => (r, s).

Notation "x <- m ;; k" := (bind m (fun x => k))
  (at level 61, m at next level, right associativity).
Notation "m ;;; k" := (bind m (fun _ => k))
  (at level 61, right associativity).

(** Field validators of pydantic: [min_length] and [max_length] on [str]. *)
Definition str_length_ok (lo hi : nat) (s : string) : bool :=
  (Nat.leb lo (String.length s) && Nat.leb (String.length s) hi)%bool.

Definition title_ok : string -> bool := str_length_ok 1 200.
Definition description_ok : string -> bool := str_length_ok 0 1000.

(** [TaskCreate(title=..., description=..., priority=..., due_date=...)]:
    an omitted keyword ([None] here) takes the field's default; the model is
    validated on construction. *)
Definition TaskCreate_init (title_kw : string) (description_kw : option string)
    (priority_kw : option TaskPriority) (due_date_kw : option date)
  : result TaskCreate :=
  let d := match description_kw with Some d => d | None => EmptyString end in
  let p := match priority_kw with Some p => p | None => MEDIUM end in
  if (title_ok title_kw && description_ok d)%bool
  then Ok {| c_title := title_kw; c_description := d;
             c_priority := p; c_due_date := due_date_kw |}
  else Raise ValidationError.

Definition opt_field_ok (ok : string -> bool) (f : option (option string)) : bool :=
  match f with
  | Some (Some s) => ok s
  | _ => true
  end.

(** [TaskUpdate(...)] : the same length constraints, on the fields that are
    passed as a string. *)
Definition TaskUpdate_init (title_kw description_kw : option (option string))
    (completed_kw : option (option bool))
    (priority_kw : option (option TaskPriority))
    (due_date_kw : option (option date))
  : result TaskUpdate :=
  if (opt_field_ok title_ok title_kw && opt_field_ok description_ok description_kw)%bool
  then Ok {| u_title := title_kw; u_description := description_kw;
             u_completed := completed_kw; u_priority := priority_kw;
             u_due_date := due_date_kw |}
  else Raise ValidationError.

(** The constructor call of [create_task]: [Task] applied to the keywords
    of [task_data.model_dump()].  A table model is built without
    validation; the fields not given take their defaults, and each
    [default_factory=datetime.utcnow] is a call of its own, [created_at]
    first. *)
Definition Task_init (now_created now_updated : datetime) (d : TaskCreate) : Task :=
  {| id := None;
     title := c_title d;
     description := c_description d;
     completed := false;
     priority := c_priority d;
     due_date := c_due_date d;
     created_at := now_created;
     updated_at := now_updated |}.

(** Attribute assignment. *)
Definition with_id (v : option Z) (t : Task) : Task :=
  mkTask v (title t) (description t) (completed t) (priority t)
         (due_date t) (created_at t) (updated_at t).
Definition with_title (v : string) (t : Task) : Task :=
  mkTask (id t) v (description t) (completed t) (priority t)
         (due_date t) (created_at t) (updated_at t).
Definition with_description (v : string) (t : Task) : Task :=
  mkTask (id t) (title t) v (completed t) (priority t)
         (due_date t) (created_at t) (updated_at t).
Definition with_completed (v : bool) (t : Task) : Task :=
  mkTask (id t) (title t) (description t) v (priority t)
         (due_date t) (created_at t) (updated_at t).
Definition with_priority (v : TaskPriority) (t : Task) : Task :=
  mkTask (id t) (title t) (description t) (completed t) v
         (due_date t) (created_at t) (updated_at t).
Definition with_due_date (v : option date) (t : Task) : Task :=
  mkTask (id t) (title t) (description t) (completed t) (priority t)
         v (created_at t) (updated_at t).
Definition with_updated_at (v : datetime) (t : Task) : Task :=
  mkTask (id t) (title t) (description t) (completed t) (priority t)
         (due_date t) (created_at t) v.

(** One entry [field, value] of [task_data.model_dump(exclude_unset=True)]. *)
Inductive assignment : Type :=
| set_title (v : option string)
| set_description (v : option string)
| set_completed (v : option bool)
| set_priority (v : option TaskPriority)
| set_due_date (v : option date).

Definition entry {A} (mk : A -> assignment) (f : option A) : list assignment :=
  match f with
  | Some v => [mk v]
  | None => []
  end.

(** The fields that were passed, in declaration order. *)
Definition model_dump_exclude_unset (u : TaskUpdate) : list assignment :=
  entry set_title (u_title u) ++ entry set_description (u_description u)
  ++ entry set_completed (u_completed u) ++ entry set_priority (u_priority u)
  ++ entry set_due_date (u_due_date u).

(** [setattr(task, field, value)].  Only [due_date] is a nullable column;
    an object that holds [None] in another column cannot be flushed, which
    is what the result [None] records (a field occurs once in the dump, so
    a later entry cannot repair it). *)
Definition setattr (a : assignment) (task : Task) : option Task :=
  match a with
  | set_title v => option_map (fun x => with_title x task) v
  | set_description v => option_map (fun x => with_description x task) v
  | set_completed v => option_map (fun x => with_completed x task) v
  | set_priority v => option_map (fun x => with_priority x task) v
  | set_due_date v => Some (with_due_date v task)
  end.

Definition setattr_all (update_data : list assignment) (task : Task) : option Task :=
  fold_left (fun o a => match o with Some t => setattr a t | None => None end)
            update_data (Some task).

(** ** The session *)

Definition has_id (k : Z) (t : Task) : bool :=
  match id t with
  | Some i => Z.eqb i k
  | None => false
  end.

(** [session.get(Task, task_id)] *)
Definition session_get (task_id : Z) : M (option Task) :=
  fun s => (Ok (find (has_id task_id) (rows s)), s).

(** [session.add(task); session.commit(); session.refresh(task)] for an
    object that is not in the table yet: INSERT, the store assigns the id. *)
Definition session_insert (task : Task) : M Task :=
  fun s => let t := with_id (Some (next_id s)) task in
           (Ok t, {| rows := rows s ++ [t]; next_id := next_id s + 1 |}).

Definition replace_row (k : Z) (t : Task) (l : list Task) : list Task :=
  map (fun r => if has_id k r then t else r) l.

(** The same three calls for an object loaded from the table: UPDATE of the
    row with that primary key.  [None] is an object holding NULL in a NOT
    NULL column: the commit raises and nothing is written. *)
Definition session_update (task_id : Z) (obj : option Task) : M Task :=
  fun s => match obj with
           | None => (Raise IntegrityError, s)
           | Some t => (Ok t, {| rows := replace_row task_id t (rows s);
                                 next_id := next_id s |})
           end.

(** [session.delete(task); session.commit()] *)
Definition session_delete (task_id : Z) : M unit :=
  fun s => (Ok tt, {| rows := filter (fun r => negb (has_id task_id r)) (rows s);
                      next_id := next_id s |}).

(** ** app/task_service.py *)

Definition create_task (now_created now_updated : datetime) (task_data : TaskCreate)
  : M Task :=
  session_insert (Task_init now_created now_updated task_data).

Definition get_task (task_id : Z) : M (option Task) :=
  session_get task_id.

Definition update_task (now : datetime) (task_id : Z) (task_data : TaskUpdate)
  : M (option Task) :=
  o <- session_get task_id ;;
  match o with
  | None => ret None
  | Some task =>
      let update_data := model_dump_exclude_unset task_data in
      let obj := option_map (with_updated_at now) (setattr_all update_data task) in
      t <- session_update task_id obj ;;
      ret (Some t)
  end.

Definition toggle_completed (now : datetime) (task_id : Z) : M (option Task) :=
  o <- session_get task_id ;;
  match o with
  | None => ret None
  | Some task =>
      let task1 := with_completed (negb (completed task)) task in
      let task2 := with_updated_at now task1 in
      t <- session_update task_id (Some task2) ;;
      ret (Some t)
  end.

Definition delete_task (task_id : Z) : M bool :=
  o <- session_get task_id ;;
  match o with
  | None => ret false
  | Some _ => session_delete task_id ;;; ret true
  end.

(** The request is built, then handed to the service
    ([todo_ui.py], [add_task] and [edit_task]; the service tests). *)
Definition create (now_created now_updated : datetime) (title_kw : string)
    (description_kw : option string) (priority_kw : option TaskPriority)
    (due_date_kw : option date) : M Task :=
  task_data <- lift (TaskCreate_init title_kw description_kw priority_kw due_date_kw) ;;
  create_task now_created now_updated task_data.

Definition update (now : datetime) (task_id : Z)
    (title_kw description_kw : option (option string))
    (completed_kw : option (option bool))
    (priority_kw : option (option TaskPriority))
    (due_date_kw : option (option date)) : M (option Task) :=
  task_data <- lift (TaskUpdate_init title_kw description_kw completed_kw
                                     priority_kw due_date_kw) ;;
  update_task now task_id task_data.

(** ** Queries *)

(** Insertion into a list that is in descending order of [key]; an element
    goes in front of the first one whose key does not exceed its own. *)
Fixpoint insert_desc (key : Task -> Z) (x : Task) (l : list Task) : list Task :=
  match l with
  | [] => [x]
  | y :: l' => if key x <? key y then y :: insert_desc key x l' else x :: y :: l'
  end.

Definition sort_desc (key : Task -> Z) (l : list Task) : list Task :=
  fold_right (insert_desc key) [] l.

Section Engine.

(** The order in which the engine reads the rows of the table before it
    sorts them; the engine is chosen in [app/database.py], which is not
    part of the sources.  The statements name one sort key and no second
    one, so this order is what decides between rows with equal keys. *)
Variable scan : list Task -> list Task.

(** [select(Task).where(p).order_by(desc(key))] *)
Definition select_where_order_by_desc (p : Task -> bool) (key : Task -> Z)
  : M (list Task) :=
  fun s => (Ok (sort_desc key (filter p (scan (rows s)))), s).

Definition get_all_tasks : M (list Task) :=
  select_where_order_by_desc (fun _ => true) created_at.

Definition get_completed_tasks : M (list Task) :=
  select_where_order_by_desc completed updated_at.

Definition get_pending_tasks : M (list Task) :=
  select_where_order_by_desc (fun t => Bool.eqb (completed t) false) created_at.

End Engine.

(** An engine reads every row once. *)
Definition scans_all (scan : list Task -> list Task) : Prop :=
  forall l, Permutation (scan l) l.

Definition insertion_order : list Task -> list Task := fun l => l.

(** ** The invariant of the table *)

(** Every row carries an id below the counter, and no id occurs twice. *)
Definition wf (s : Db) : Prop :=
  NoDup (map id (rows s)) /\
  Forall (fun t => exists k, id t = Some k /\ k < next_id s) (rows s).

(** ** Order of a query result *)

Definition desc_by (key : Task -> Z) : list Task -> Prop :=
  StronglySorted (fun a b => key b <= key a).

(** Rows with equal [key] stand in [res] in the order they have in [src]. *)
Definition ties_in_order (key : Task -> Z) (src res : list Task) : Prop :=
  forall c, filter (fun t => key t =? c) res = filter (fun t => key t =? c) src.

(** ** Sample data *)

Definition long_string (n : nat) : string :=
  string_of_list_ascii (repeat "x"%char n).

Definition sample_task : Task :=
  {| id := Some 1; title := "Buy milk"; description := EmptyString;
     completed := false; priority := MEDIUM; due_date := None;
     created_at := 1000; updated_at := 1001 |}.

Definition sample_db : Db := {| rows := [sample_task]; next_id := 2 |}.

Definition done_task : Task :=
  {| id := Some 2; title := "Ship release"; description := EmptyString;
     completed := true; priority := URGENT; due_date := Some 20089;
     created_at := 1500; updated_at := 1800 |}.

Definition mixed_db : Db := {| rows := [sample_task; done_task]; next_id := 3 |}.

(** Two tasks created at the same clock reading, one after the other. *)
Definition tied_db : Db :=
  snd (create 1000 1000 "second" None None None
         (snd (create 1000 1000 "first" None None None empty_db))).

Definition tied_first : Task :=
  {| id := Some 1; title := "first"; description := EmptyString;
     completed := false; priority := MEDIUM; due_date := None;
     created_at := 1000; updated_at := 1000 |}.

Definition tied_second : Task :=
  {| id := Some 2; title := "second"; description := EmptyString;
     completed := false; priority := MEDIUM; due_date := None;
     created_at := 1000; updated_at := 1000 |}.

(** ** The scenario of the service tests

    Task A, then task B (urgent, with a due date) strictly later; the
    listing has B first; after toggling A, B alone is pending and A alone
    is completed. *)
Definition scenario_db : Db :=
  snd (create 20 21 "Ship release" None (Some URGENT) (Some 20089)
         (snd (create 10 11 "Buy milk" None None None empty_db))).

(** ** The length constraints as an invariant of the rows *)

Definition task_valid (t : Task) : Prop :=
  title_ok (title t) = true /\ description_ok (description t) = true.

Definition rows_valid (s : Db) : Prop := Forall task_valid (rows s).

Definition assignment_valid (a : assignment) : Prop :=
  match a with
  | set_title (Some x) => title_ok x = true
  | set_description (Some d) => description_ok d = true
  | _ => True
  end.

(** ** Histories of service calls *)

(** One call of the service as its callers make it: the request object is
    built from the keywords, then handed over. *)
Inductive call : Type :=
| call_create (now_created now_updated : datetime) (title_kw : string)
    (description_kw : option string) (priority_kw : option TaskPriority)
    (due_date_kw : option date)
| call_update (now : datetime) (task_id : Z)
    (title_kw description_kw : option (option string))
    (completed_kw : option (option bool))
    (priority_kw : option (option TaskPriority))
    (due_date_kw : option (option date))
| call_toggle (now : datetime) (task_id : Z)
| call_delete (task_id : Z).

(** The table after a call, whatever it returned or raised. *)
Definition step (c : call) (s : Db) : Db :=
  match c with
  | call_create nc nu t d p due => snd (create nc nu t d p due s)
  | call_update now k t d c p due => snd (update now k t d c p due s)
  | call_toggle now k => snd (toggle_completed now k s)
  | call_delete k => snd (delete_task k s)
  end.

Definition run (cs : list call) (s : Db) : Db :=
  fold_left (fun s c => step c s) cs s.

(** The clock readings of a history never go backwards: each is at least
    [last], the latest reading before it. *)
Fixpoint clock_monotone (last : datetime) (cs : list call) : bool :=
  match cs with
  | [] => true
  | call_create nc nu _ _ _ _ :: cs' =>
      (last <=? nc) && (nc <=? nu) && clock_monotone nu cs'
  | call_update now _ _ _ _ _ _ :: cs' => (last <=? now) && clock_monotone now cs'
  | call_toggle now _ :: cs' => (last <=? now) && clock_monotone now cs'
  | call_delete _ :: cs' => clock_monotone last cs'
  end.

Definition timestamps_ordered (t : Task) : Prop := created_at t <= updated_at t.

(** ** app/todo_ui.py: the handlers, without the widgets *)

(** [str.isspace] on the code points below 256. *)
Definition isspace (c : ascii) : bool :=
  let n := nat_of_ascii c in
  (Nat.leb 9 n && Nat.leb n 13) || (Nat.leb 28 n && Nat.leb n 32)
  || Nat.eqb n 133 || Nat.eqb n 160.

Fixpoint lstrip (s : string) : string :=
  match s with
  | EmptyString => EmptyString
  | String c s' => if isspace c then lstrip s' else s
  end.

Fixpoint rstrip (s : string) : string :=
  match s with
  | EmptyString => EmptyString
  | String c s' =>
      match rstrip s' with
      | EmptyString => if isspace c then EmptyString else String c EmptyString
      | r => String c r
      end
  end.

(** [str.strip()] *)
Definition strip (s : string) : string := rstrip (lstrip s).

(** Python truthiness of a [str]. *)
Definition nonempty (s : string) : bool :=
  match s with
  | EmptyString => false
  | String _ _ => true
  end.

(** The value of a [ui.date] element: nothing, an ISO string, or a date. *)
Inductive date_value : Type :=
| date_unset
| date_text (s : string)
| date_obj (d : date).

(** What a handler caught in its [except Exception]. *)
Inductive failure : Type :=
| service_error (e : exn)
| date_error.

(** The calls of [ui.notify] of the handlers. *)
Inductive notice : Type :=
| note_enter_title
| note_added (task_title : string)
| note_error_adding (f : failure)
| note_marked (now_completed : bool)
| note_not_found
| note_error_updating (f : failure)
| note_deleted
| note_error_deleting (f : failure)
| note_updated
| note_update_failed
| note_error_editing (f : failure).

(** What the user chose in a dialog. *)
Inductive dialog_result : Type := chose_cancel | chose_delete | chose_save.

(** [refresh_task_list]: the empty state, or the two groups of cards. *)
Inductive task_list_view : Type :=
| view_empty
| view_groups (pending_tasks completed_tasks : list Task)
| view_error (e : exn).

Section Handlers.

(** [datetime.fromisoformat(s).date()]; [None] when it raises. *)
Variable fromisoformat : string -> option date.

(** The "Parse due date" block of [add_new_task] and [edit_task_dialog]. *)
Definition parse_due_date (v : date_value) : failure + option date :=
  match v with
  | date_unset => inr None
  | date_text s =>
      if nonempty s
      then match fromisoformat s with
           | Some d => inr (Some d)
           | None => inl date_error
           end
      else inr None
  | date_obj d => inr (Some d)
  end.

Definition add_new_task (now_created now_updated : datetime)
    (title_value description_value : string) (priority_value : TaskPriority)
    (due_value : date_value) (s : Db) : notice * Db :=
  let stripped_title := strip title_value in
  if negb (nonempty stripped_title) then (note_enter_title, s)
  else
    match parse_due_date due_value with
    | inl f => (note_error_adding f, s)
    | inr due_date =>
        let description := strip description_value in
        match create now_created now_updated stripped_title (Some description)
                     (Some priority_value) due_date s with
        | (Ok task, s') => (note_added (title task), s')
        | (Raise e, s') => (note_error_adding (service_error e), s')
        end
    end.

Definition toggle_task_completion (now : datetime) (task_id : Z) (s : Db)
  : notice * Db :=
  match toggle_completed now task_id s with
  | (Ok (Some updated_task), s') => (note_marked (completed updated_task), s')
  | (Ok None, s') => (note_not_found, s')
  | (Raise e, s') => (note_error_updating (service_error e), s')
  end.

Definition delete_task_confirm (choice : dialog_result) (task_id : Z) (s : Db)
  : option notice * Db :=
  match choice with
  | chose_delete =>
      match delete_task task_id s with
      | (Ok true, s') => (Some note_deleted, s')
      | (Ok false, s') => (Some note_not_found, s')
      | (Raise e, s') => (Some (note_error_deleting (service_error e)), s')
      end
  | _ => (None, s)
  end.

(** [edit_task_dialog]: the values are those of the form fields when the
    dialog is closed. *)
Definition edit_task_dialog (now : datetime) (task_id : Z) (choice : dialog_result)
    (title_value description_value : string) (priority_value : TaskPriority)
    (due_value : date_value) (s : Db) : option notice * Db :=
  match get_task task_id s with
  | (Raise e, s0) => (Some (note_error_editing (service_error e)), s0)
  | (Ok None, s0) => (Some note_not_found, s0)
  | (Ok (Some _), s0) =>
      match choice with
      | chose_save =>
          let stripped_title := strip title_value in
          if negb (nonempty stripped_title) then (Some note_enter_title, s0)
          else
            match parse_due_date due_value with
            | inl f => (Some (note_error_editing f), s0)
            | inr due_date =>
                match update now task_id (Some (Some stripped_title))
                             (Some (Some (strip description_value))) None
                             (Some (Some priority_value)) (Some due_date) s0 with
                | (Ok (Some _), s') => (Some note_updated, s')
                | (Ok None, s') => (Some note_update_failed, s')
                | (Raise e, s') => (Some (note_error_editing (service_error e)), s')
                end
            end
      | _ => (None, s0)
      end
  end.

End Handlers.

Section Listing.

Variable scan : list Task -> list Task.

Definition refresh_task_list (s : Db) : task_list_view :=
  match get_all_tasks scan s with
  | (Ok [], _) => view_empty
  | (Ok tasks, _) =>
      view_groups (filter (fun t => negb (completed t)) tasks)
                  (filter (fun t => completed t) tasks)
  | (Raise e, _) => view_error e
  end.

End Listing.

(** One action of the user on the page. *)
Inductive ui_event : Type :=
| ev_add (now_created now_updated : datetime) (title_value description_value : string)
    (priority_value : TaskPriority) (due_value : date_value)
| ev_toggle (now : datetime) (task_id : Z)
| ev_delete (choice : dialog_result) (task_id : Z)
| ev_edit (now : datetime) (task_id : Z) (choice : dialog_result)
    (title_value description_value : string) (priority_value : TaskPriority)
    (due_value : date_value).

Definition ui_step (fromisoformat : string -> option date) (e : ui_event) (s : Db) : Db :=
  match e with
  | ev_add nc nu t d p due => snd (add_new_task fromisoformat nc nu t d p due s)
  | ev_toggle now k => snd (toggle_task_completion now k s)
  | ev_delete ch k => snd (delete_task_confirm ch k s)
  | ev_edit now k ch t d p due => snd (edit_task_dialog fromisoformat now k ch t d p due s)
  end.

Definition ui_run (fromisoformat : string -> option date) (es : list ui_event) (s : Db) : Db :=
  fold_left (fun s e => ui_step fromisoformat e s) es s.

(** A string that [strip] leaves alone. *)
Definition stripped (s : string) : Prop := strip s = s.

(** A string made of whitespace only (the empty one included). *)
Definition blank (s : string) : bool := forallb isspace (list_ascii_of_string s).

Definition clean_task (t : Task) : Prop :=
  stripped (title t) /\ stripped (description t).

(** The calls that the form handlers make: titles and descriptions are
    stripped first, and [completed] is never passed. *)
Definition form_call (c : call) : Prop :=
  match c with
  | call_create _ _ t (Some d) _ _ => stripped t /\ stripped d
  | call_create _ _ _ None _ _ => False
  | call_update _ _ (Some (Some x)) (Some (Some d)) None (Some (Some _)) (Some _) =>
      stripped x /\ stripped d
  | call_update _ _ _ _ _ _ _ => False
  | call_toggle _ _ => True
  | call_delete _ => True
  end.

(** ** Basic facts *)

Lemma str_length_ok_spec lo hi s :
  str_length_ok lo hi s = true <-> (lo <= String.length s <= hi)%nat.
Proof.
  unfold str_length_ok.
  rewrite andb_true_iff, !Nat.leb_le. reflexivity.
Qed.

Lemma str_length_ok_false lo hi s :
  (String.length s < lo \/ hi < String.length s)%nat ->
  str_length_ok lo hi s = false.
Proof.
  intros H. destruct (str_length_ok lo hi s) eqn:E; [|reflexivity].
  apply str_length_ok_spec in E. lia.
Qed.

Lemma has_id_true k t : has_id k t = true <-> id t = Some k.
Proof.
  unfold has_id. destruct (id t) as [i|].
  - rewrite Z.eqb_eq. split; congruence.
  - split; discriminate.
Qed.

Lemma find_has_id_none k l :
  find (has_id k) l = None <-> ~ In (Some k) (map id l).
Proof.
  induction l as [|r l IH]; simpl.
  - tauto.
  - destruct (has_id k r) eqn:E.
    + apply has_id_true in E. split; [discriminate | intros H; elim H; auto].
    + rewrite IH. split.
      * intros H [H1|H1]; [|tauto].
        apply has_id_true in H1. congruence.
      * tauto.
Qed.

Lemma find_has_id_some k l t :
  find (has_id k) l = Some t -> In t l /\ id t = Some k.
Proof.
  intros H. apply find_some in H. rewrite has_id_true in H. exact H.
Qed.

Lemma in_ids_find k l :
  In (Some k) (map id l) -> exists t, find (has_id k) l = Some t.
Proof.
  intros H. destruct (find (has_id k) l) as [t|] eqn:E; [eauto|].
  apply find_has_id_none in E. contradiction.
Qed.

Lemma find_replace_row k t l :
  has_id k t = true ->
  find (has_id k) (replace_row k t l) =
  match find (has_id k) l with Some _ => Some t | None => None end.
Proof.
  intros Ht. induction l as [|r l IH]; simpl; [reflexivity|].
  destruct (has_id k r) eqn:E.
  - rewrite Ht. reflexivity.
  - rewrite E. exact IH.
Qed.

Lemma find_replace_row_other k j t l :
  j <> k -> id t = Some k ->
  find (has_id j) (replace_row k t l) = find (has_id j) l.
Proof.
  intros Hjk Ht. induction l as [|r l IH]; simpl; [reflexivity|].
  destruct (has_id k r) eqn:E.
  - assert (has_id j t = false) as ->.
    { unfold has_id. rewrite Ht. apply Z.eqb_neq. congruence. }
    assert (has_id j r = false) as ->.
    { apply has_id_true in E. unfold has_id. rewrite E.
      apply Z.eqb_neq. congruence. }
    exact IH.
  - destruct (has_id j r); [reflexivity | exact IH].
Qed.

Lemma map_id_replace_row k t l :
  id t = Some k -> map id (replace_row k t l) = map id l.
Proof.
  intros Ht. induction l as [|r l IH]; simpl; [reflexivity|].
  rewrite IH. destruct (has_id k r) eqn:E; [|reflexivity].
  apply has_id_true in E. congruence.
Qed.

Lemma find_delete k l :
  find (has_id k) (filter (fun r => negb (has_id k r)) l) = None.
Proof.
  induction l as [|r l IH]; simpl; [reflexivity|].
  destruct (has_id k r) eqn:E; simpl; [exact IH|].
  rewrite E. exact IH.
Qed.

(** ** The invariant holds initially and is kept by every operation *)

Lemma wf_empty_db : wf empty_db.
Proof.
  split; simpl; constructor.
Qed.

Lemma wf_fresh s : wf s -> ~ In (Some (next_id s)) (map id (rows s)).
Proof.
  intros [_ Hb] Hin. apply in_map_iff in Hin as [t [Ht Hin]].
  rewrite Forall_forall in Hb. destruct (Hb t Hin) as [k [Hk Hlt]].
  assert (k = next_id s) by congruence. lia.
Qed.

Lemma wf_session_insert s task :
  wf s -> wf (snd (session_insert task s)).
Proof.
  intros Hwf. pose proof (wf_fresh s Hwf) as Hfresh.
  destruct Hwf as [Hnd Hb]. split; simpl.
  - rewrite map_app. simpl.
    apply (Permutation_NoDup (Permutation_cons_append _ _)).
    constructor; assumption.
  - apply Forall_app. split.
    + eapply Forall_impl; [|exact Hb]. simpl.
      intros t [k [Hk Hlt]]. exists k. split; [assumption | lia].
    + constructor; [|constructor]. exists (next_id s). simpl. split; [reflexivity | lia].
Qed.

Lemma wf_replace_row s k t :
  wf s -> id t = Some k -> In (Some k) (map id (rows s)) ->
  wf {| rows := replace_row k t (rows s); next_id := next_id s |}.
Proof.
  intros [Hnd Hb] Ht Hin. split; simpl.
  - rewrite map_id_replace_row by assumption. assumption.
  - unfold replace_row. apply Forall_map.
    rewrite Forall_forall in *. intros r Hr.
    destruct (has_id k r) eqn:E; [|auto].
    apply has_id_true in E. destruct (Hb r Hr) as [j [Hj Hlt]].
    exists j. split; [congruence | assumption].
Qed.

Lemma wf_session_delete s k :
  wf s -> wf (snd (session_delete k s)).
Proof.
  intros [Hnd Hb]. split; simpl.
  - clear Hb. induction (rows s) as [|r l IH]; simpl; [constructor|].
    inversion Hnd as [|x l' Hx Hl]; subst.
    destruct (negb (has_id k r)); simpl; [|auto].
    constructor; [|auto].
    intros Hin. apply Hx. apply in_map_iff in Hin as [t [Ht Hin]].
    apply filter_In in Hin. apply in_map_iff. exists t. tauto.
  - rewrite Forall_forall in *. intros t Ht. apply filter_In in Ht. apply Hb, Ht.
Qed.

(** ** The sort behind [order_by(desc(key))] *)

Section SortDesc.

Variable key : Task -> Z.

Lemma insert_desc_perm x l : Permutation (insert_desc key x l) (x :: l).
Proof.
  induction l as [|y l IH]; simpl; [reflexivity|].
  destruct (key x <? key y); [|reflexivity].
  rewrite IH. apply perm_swap.
Qed.

Lemma sort_desc_perm l : Permutation (sort_desc key l) l.
Proof.
  induction l as [|x l IH]; simpl; [reflexivity|].
  rewrite insert_desc_perm. apply perm_skip, IH.
Qed.

Lemma insert_desc_sorted x l :
  desc_by key l -> desc_by key (insert_desc key x l).
Proof.
  unfold desc_by. induction l as [|y l IH]; simpl; intros Hs.
  - repeat constructor.
  - inversion Hs as [|y' l' Hl Hy]; subst.
    destruct (key x <? key y) eqn:E.
    + apply Z.ltb_lt in E. constructor; [auto|].
      rewrite Forall_forall in *. intros z Hz.
      apply (Permutation_in _ (insert_desc_perm x l)) in Hz.
      destruct Hz as [<-|Hz]; [lia | auto].
    + apply Z.ltb_ge in E. constructor; [assumption|].
      constructor; [assumption|].
      rewrite Forall_forall in *. intros z Hz. specialize (Hy z Hz). lia.
Qed.

Lemma sort_desc_sorted l : desc_by key (sort_desc key l).
Proof.
  induction l as [|x l IH]; simpl.
  - constructor.
  - apply insert_desc_sorted, IH.
Qed.

Lemma filter_insert_desc c x l :
  filter (fun t => key t =? c) (insert_desc key x l) =
  filter (fun t => key t =? c) (x :: l).
Proof.
  induction l as [|y l IH]; [reflexivity|].
  cbn [insert_desc]. destruct (key x <? key y) eqn:E; [|reflexivity].
  apply Z.ltb_lt in E. cbn [filter] in *. rewrite IH.
  destruct (key x =? c) eqn:Ex, (key y =? c) eqn:Ey; try reflexivity.
  apply Z.eqb_eq in Ex, Ey. lia.
Qed.

(** The sort is stable: it never exchanges two rows with the same key. *)
Lemma sort_desc_stable l : ties_in_order key l (sort_desc key l).
Proof.
  intros c. induction l as [|x l IH]; [reflexivity|].
  cbn [sort_desc fold_right]. rewrite filter_insert_desc.
  cbn [filter]. fold (sort_desc key l). rewrite IH. reflexivity.
Qed.

Lemma sort_desc_in t l : In t (sort_desc key l) <-> In t l.
Proof.
  split; apply Permutation_in; [|symmetry]; apply sort_desc_perm.
Qed.

End SortDesc.

Lemma filter_partition_perm (p : Task -> bool) l :
  Permutation (filter p l ++ filter (fun t => Bool.eqb (p t) false) l) l.
Proof.
  induction l as [|x l IH]; simpl; [reflexivity|].
  destruct (p x); simpl.
  - apply perm_skip, IH.
  - symmetry. apply Permutation_cons_app. symmetry. exact IH.
Qed.

Lemma filter_perm (p : Task -> bool) l l' :
  Permutation l l' -> Permutation (filter p l) (filter p l').
Proof.
  induction 1; simpl.
  - reflexivity.
  - destruct (p x); [apply perm_skip|]; assumption.
  - destruct (p x), (p y); try reflexivity; apply perm_swap.
  - etransitivity; eassumption.
Qed.

Lemma filter_all (l : list Task) : filter (fun _ => true) l = l.
Proof.
  induction l as [|x l IH]; simpl; [|rewrite IH]; reflexivity.
Qed.

(** ** Reading back what was written *)

Lemma get_task_found k s t :
  get_task k s = (Ok (Some t), s) <-> find (has_id k) (rows s) = Some t.
Proof.
  unfold get_task, session_get. split; intros H; [congruence | rewrite H; reflexivity].
Qed.

Lemma find_snoc_fresh k l t :
  ~ In (Some k) (map id l) -> id t = Some k ->
  find (has_id k) (l ++ [t]) = Some t.
Proof.
  intros Hfresh Ht. apply find_has_id_none in Hfresh.
  induction l as [|r l IH]; simpl in *.
  - apply has_id_true in Ht. rewrite Ht. reflexivity.
  - destruct (has_id k r); [discriminate | auto].
Qed.

Lemma find_replaced k t t' l :
  find (has_id k) l = Some t -> id t' = id t ->
  find (has_id k) (replace_row k t' l) = Some t'.
Proof.
  intros Hf Hid. pose proof (find_has_id_some _ _ _ Hf) as [_ Hk].
  rewrite find_replace_row, Hf; [reflexivity|].
  apply has_id_true. congruence.
Qed.

(** ** Creation *)

(** C1, as the code has it: for a valid create request on a well-formed
    table, [create] returns a task whose id is the next one of the store
    and occurs in no row before the call, with [completed = false], the
    priority of the request or [MEDIUM] when it is omitted, and with
    [created_at] and [updated_at] taken from two successive readings of the
    clock; [created_at <= updated_at] when the second reading is not before
    the first.  The task is appended to the table and can be read back. *)
Theorem create_valid_request :
  forall (s : Db) (now_created now_updated : datetime) (ttl : string)
         (dkw : option string) (pkw : option TaskPriority) (due : option date),
    wf s ->
    (1 <= String.length ttl <= 200)%nat ->
    (String.length (match dkw with Some d => d | None => EmptyString end) <= 1000)%nat ->
    exists t s',
      create now_created now_updated ttl dkw pkw due s = (Ok t, s') /\
      id t = Some (next_id s) /\
      ~ In (id t) (map id (rows s)) /\
      rows s' = rows s ++ [t] /\
      wf s' /\
      get_task (next_id s) s' = (Ok (Some t), s') /\
      title t = ttl /\
      description t = match dkw with Some d => d | None => EmptyString end /\
      completed t = false /\
      priority t = match pkw with Some p => p | None => MEDIUM end /\
      due_date t = due /\
      created_at t = now_created /\
      updated_at t = now_updated /\
      (now_created <= now_updated -> created_at t <= updated_at t).
Proof.
  intros s nc nu ttl dkw pkw due Hwf Ht Hd.
  assert (title_ok ttl = true) as Et by (apply str_length_ok_spec; exact Ht).
  assert (description_ok (match dkw with Some d => d | None => EmptyString end) = true)
    as Ed by (apply str_length_ok_spec; lia).
  pose proof (wf_fresh s Hwf) as Hfresh.
  eexists. eexists. split.
  { unfold create, bind, lift, TaskCreate_init. rewrite Et, Ed. simpl.
    unfold create_task, session_insert. reflexivity. }
  simpl. split; [reflexivity|]. split; [exact Hfresh|]. split; [reflexivity|].
  split; [exact (wf_session_insert s _ Hwf)|]. split.
  { apply get_task_found. simpl. apply find_snoc_fresh; [assumption | reflexivity]. }
  repeat (split; [reflexivity|]). intros Hclock. exact Hclock.
Qed.

(** A valid request on the empty table, the clock read at 1000 and 1001. *)
Lemma create_valid_request_witness :
  exists t s',
    create 1000 1001 "Buy milk" None None None empty_db = (Ok t, s') /\
    id t = Some 1 /\ completed t = false /\ priority t = MEDIUM /\
    created_at t <= updated_at t.
Proof.
  destruct (create_valid_request empty_db 1000 1001 "Buy milk" None None None)
    as (t & s' & H & Hid & _ & _ & _ & _ & _ & _ & Hc & Hp & _ & _ & _ & Hle).
  - exact wf_empty_db.
  - simpl. lia.
  - simpl. lia.
  - exists t, s'. split; [exact H|]. split; [exact Hid|]. split; [exact Hc|].
    split; [exact Hp|]. apply Hle. lia.
Defined.

(** C1 as stated does not hold: the two timestamps of a new task come from
    two calls of the clock, and differ whenever the clock moved in
    between. *)
Lemma create_timestamps_differ :
  exists t s',
    create 1000 1001 "Buy milk" None None None empty_db = (Ok t, s') /\
    created_at t <> updated_at t.
Proof.
  eexists. eexists. split; [reflexivity|]. simpl. discriminate.
Qed.

(** C2: a create request whose title is empty or longer than 200, or whose
    description is longer than 1000, raises [ValidationError]; the table is
    the one before the call, so its size is unchanged. *)
Theorem create_invalid_request :
  forall (s : Db) (now_created now_updated : datetime) (ttl : string)
         (dkw : option string) (pkw : option TaskPriority) (due : option date),
    (String.length ttl = 0 \/ 200 < String.length ttl \/
     1000 < String.length (match dkw with Some d => d | None => EmptyString end))%nat ->
    create now_created now_updated ttl dkw pkw due s = (Raise ValidationError, s) /\
    List.length (rows (snd (create now_created now_updated ttl dkw pkw due s)))
    = List.length (rows s).
Proof.
  intros s nc nu ttl dkw pkw due H.
  assert (create nc nu ttl dkw pkw due s = (Raise ValidationError, s)) as E.
  { unfold create, bind, lift, TaskCreate_init.
    unfold title_ok, description_ok.
    destruct H as [H|[H|H]].
    - rewrite (str_length_ok_false 1 200 ttl) by lia. reflexivity.
    - rewrite (str_length_ok_false 1 200 ttl) by lia. reflexivity.
    - rewrite (str_length_ok_false 0 1000 _ (or_intror H)).
      rewrite andb_false_r. reflexivity. }
  rewrite E. split; reflexivity.
Qed.

(** A title of 201 characters, as in the service tests. *)
Lemma create_invalid_request_witness :
  create 1000 1001 (long_string 201) None None None empty_db
  = (Raise ValidationError, empty_db).
Proof.
  apply (proj1 (create_invalid_request empty_db 1000 1001 (long_string 201)
                                     None None None ltac:(right; left; vm_compute; lia))).
Defined.

(** ** Update *)

Lemma update_task_found now k u s t t1 :
  find (has_id k) (rows s) = Some t ->
  setattr_all (model_dump_exclude_unset u) t = Some t1 ->
  update_task now k u s =
  (Ok (Some (with_updated_at now t1)),
   {| rows := replace_row k (with_updated_at now t1) (rows s);
      next_id := next_id s |}).
Proof.
  intros Hf Hset. unfold update_task, bind, session_get.
  rewrite Hf. simpl. rewrite Hset. reflexivity.
Qed.

Lemma update_task_missing now k u s :
  find (has_id k) (rows s) = None ->
  update_task now k u s = (Ok None, s).
Proof.
  intros Hf. unfold update_task, bind, session_get. rewrite Hf. reflexivity.
Qed.

Lemma update_task_null now k u s t :
  find (has_id k) (rows s) = Some t ->
  setattr_all (model_dump_exclude_unset u) t = None ->
  update_task now k u s = (Raise IntegrityError, s).
Proof.
  intros Hf Hset. unfold update_task, bind, session_get.
  rewrite Hf. simpl. rewrite Hset. reflexivity.
Qed.




(** C9: the update request has an optional [completed] field, and on an
    existing task an update whose request sets [completed] to a boolean
    stores and returns the task with that value of the flag. *)
Theorem update_sets_completed :
  forall (s : Db) (now : datetime) (k : Z) (t : Task) (b : bool),
    get_task k s = (Ok (Some t), s) ->
    (exists u, TaskUpdate_init None None (Some (Some b)) None None = Ok u /\
               u_completed u = Some (Some b)) /\
    exists t' s',
      update now k None None (Some (Some b)) None None s = (Ok (Some t'), s') /\
      get_task k s' = (Ok (Some t'), s') /\
      completed t' = b.
Proof.
  intros s now k t b Hget. apply get_task_found in Hget.
  split; [eexists; split; reflexivity|].
  eexists. eexists. split.
  { unfold update, bind, lift, TaskUpdate_init. simpl.
    apply (update_task_found now k _ s t (with_completed b t) Hget). reflexivity. }
  split; [|reflexivity].
  apply get_task_found. simpl. apply (find_replaced k t); [assumption | reflexivity].
Qed.

Lemma update_sets_completed_witness :
  exists t' s',
    update 2000 1 None None (Some (Some true)) None None sample_db = (Ok (Some t'), s') /\
    get_task 1 s' = (Ok (Some t'), s') /\
    completed t' = true.
Proof.
  exact (proj2 (update_sets_completed sample_db 2000 1 sample_task true eq_refl)).
Defined.

(** C10, as the code has it: on an existing task, an update whose request
    sets no field still writes the row: [updated_at] becomes the clock
    reading of the call and every other field is unchanged.  [updated_at]
    strictly advances exactly when that reading is later than the stored
    value, and the stored task differs from the prior one exactly when the
    reading differs from the stored value. *)
Theorem update_empty_request :
  forall (s : Db) (now : datetime) (k : Z) (t : Task),
    get_task k s = (Ok (Some t), s) ->
    exists t' s',
      update now k None None None None None s = (Ok (Some t'), s') /\
      get_task k s' = (Ok (Some t'), s') /\
      updated_at t' = now /\
      (updated_at t < updated_at t' <-> updated_at t < now) /\
      id t' = id t /\
      title t' = title t /\
      description t' = description t /\
      completed t' = completed t /\
      priority t' = priority t /\
      due_date t' = due_date t /\
      created_at t' = created_at t /\
      (fst (get_task k s') <> fst (get_task k s) <-> now <> updated_at t).
Proof.
  intros s now k t Hget.
  pose proof Hget as Hfind. apply get_task_found in Hfind.
  eexists. eexists. split.
  { unfold update, bind, lift, TaskUpdate_init. simpl.
    apply (update_task_found now k _ s t t Hfind). reflexivity. }
  assert (find (has_id k) (replace_row k (with_updated_at now t) (rows s))
          = Some (with_updated_at now t)) as Hnew.
  { apply (find_replaced k t); [assumption | reflexivity]. }
  split; [apply get_task_found; exact Hnew|].
  simpl. split; [reflexivity|]. split; [reflexivity|].
  repeat (split; [reflexivity|]).
  unfold get_task, session_get. simpl. rewrite Hnew, Hfind. split.
  - intros Hne Heq. apply Hne. subst now. destruct t; reflexivity.
  - intros Hne E. injection E as E. apply (f_equal updated_at) in E. simpl in E.
    exact (Hne E).
Qed.

Lemma update_empty_request_witness :
  exists t' s',
    update 2000 1 None None None None None sample_db = (Ok (Some t'), s') /\
    updated_at t' = 2000 /\ title t' = title sample_task /\
    updated_at sample_task < updated_at t'.
Proof.
  destruct (update_empty_request sample_db 2000 1 sample_task)
    as (t' & s' & H & _ & Hu & Hlt & _ & Ht & _).
  - reflexivity.
  - exists t', s'. split; [exact H|]. split; [exact Hu|]. split; [exact Ht|].
    apply Hlt. simpl. lia.
Defined.

(** C10 as stated does not hold: an update with no field, made while the
    clock still reads the stored [updated_at], returns the task as it was
    and leaves the table as it was. *)
Lemma update_empty_request_clock_stalled :
  update 1001 1 None None None None None sample_db = (Ok (Some sample_task), sample_db) /\
  ~ updated_at sample_task < 1001.
Proof.
  split; [vm_compute; reflexivity|]. simpl. lia.
Qed.

(** ** Validation on update *)

Lemma setattr_valid a t t' :
  assignment_valid a -> task_valid t -> setattr a t = Some t' -> task_valid t'.
Proof.
  unfold task_valid.
  destruct a as [[x|]|[d|]|[b|]|[p|]|du]; simpl; intros Ha [Ht Hd] E;
    try discriminate; injection E as <-; simpl; auto.
Qed.

Lemma setattr_all_valid l :
  Forall assignment_valid l ->
  forall t t', task_valid t -> setattr_all l t = Some t' -> task_valid t'.
Proof.
  unfold setattr_all. induction 1 as [|a l Ha Hl IH]; simpl; intros t t' Ht E.
  - injection E as <-. exact Ht.
  - destruct (setattr a t) as [t1|] eqn:E1.
    + apply (IH t1); [eapply setattr_valid; eassumption | exact E].
    + exfalso. clear -E. induction l as [|b l IHl]; simpl in E; [discriminate | auto].
Qed.

Lemma TaskUpdate_init_valid tkw dkw ckw pkw duekw u :
  TaskUpdate_init tkw dkw ckw pkw duekw = Ok u ->
  Forall assignment_valid (model_dump_exclude_unset u).
Proof.
  unfold TaskUpdate_init.
  destruct (opt_field_ok title_ok tkw) eqn:Et; [|discriminate].
  destruct (opt_field_ok description_ok dkw) eqn:Ed; [|discriminate].
  cbn [andb]. intros E. injection E as <-.
  unfold model_dump_exclude_unset. cbn [u_title u_description u_completed u_priority u_due_date].
  apply Forall_app; split; [|apply Forall_app; split;
    [|apply Forall_app; split; [|apply Forall_app; split]]].
  - destruct tkw as [[x|]|]; cbn [entry]; [constructor; [exact Et|] | constructor; [exact I|] |];
      constructor.
  - destruct dkw as [[d|]|]; cbn [entry]; [constructor; [exact Ed|] | constructor; [exact I|] |];
      constructor.
  - destruct ckw as [[c|]|]; cbn [entry]; [constructor; [exact I|] | constructor; [exact I|] |];
      constructor.
  - destruct pkw as [[p|]|]; cbn [entry]; [constructor; [exact I|] | constructor; [exact I|] |];
      constructor.
  - destruct duekw as [d|]; cbn [entry]; [constructor; [exact I|] |]; constructor.
Qed.

Lemma update_task_keeps_valid now k u s :
  Forall assignment_valid (model_dump_exclude_unset u) ->
  rows_valid s -> rows_valid (snd (update_task now k u s)).
Proof.
  intros Hu Hs. destruct (find (has_id k) (rows s)) as [t|] eqn:Hf.
  - destruct (setattr_all (model_dump_exclude_unset u) t) as [t1|] eqn:Hset.
    + rewrite (update_task_found now k u s t t1 Hf Hset). unfold rows_valid. simpl.
      assert (task_valid (with_updated_at now t1)) as Hv.
      { apply find_has_id_some in Hf as [Hin _].
        unfold rows_valid in Hs. rewrite Forall_forall in Hs.
        apply (setattr_all_valid _ Hu t t1 (Hs t Hin) Hset). }
      unfold replace_row. apply Forall_map.
      eapply Forall_impl; [|exact Hs]. intros r Hr.
      destruct (has_id k r); assumption.
    + rewrite (update_task_null now k u s t Hf Hset). exact Hs.
  - rewrite (update_task_missing now k u s Hf). exact Hs.
Qed.

(** C4: the update request carries the length constraints of the create
    request (it accepts a title and a description exactly when the create
    request does); an update whose title is empty or longer than 200, or
    whose description is longer than 1000, raises [ValidationError] and
    leaves the table as it was; and whatever the request, the rows satisfy
    the constraints after the call when they did before. *)
Theorem update_revalidates :
  forall (s : Db) (now : datetime) (k : Z)
         (tkw dkw : option (option string)) (ckw : option (option bool))
         (pkw : option (option TaskPriority)) (duekw : option (option date)),
    ((exists x, tkw = Some (Some x) /\
                (String.length x = 0 \/ 200 < String.length x)%nat) \/
     (exists d, dkw = Some (Some d) /\ (1000 < String.length d)%nat) ->
     update now k tkw dkw ckw pkw duekw s = (Raise ValidationError, s)) /\
    (rows_valid s -> rows_valid (snd (update now k tkw dkw ckw pkw duekw s))) /\
    (forall x d p due,
        (exists u, TaskUpdate_init (Some (Some x)) (Some (Some d)) ckw pkw duekw = Ok u)
        <-> (exists c, TaskCreate_init x (Some d) p due = Ok c)).
Proof.
  intros s now k tkw dkw ckw pkw duekw. split; [|split].
  - intros H. unfold update, bind, lift, TaskUpdate_init.
    destruct H as [[x [-> Hx]]|[d [-> Hd]]]; simpl.
    + unfold title_ok. rewrite (str_length_ok_false 1 200 x) by lia. reflexivity.
    + unfold description_ok at 1.
      rewrite (str_length_ok_false 0 1000 d (or_intror Hd)).
      rewrite andb_false_r. reflexivity.
  - intros Hs. unfold update, bind, lift.
    destruct (TaskUpdate_init tkw dkw ckw pkw duekw) as [u|e] eqn:E; [|exact Hs].
    apply update_task_keeps_valid; [|exact Hs].
    eapply TaskUpdate_init_valid; exact E.
  - intros x d p due. unfold TaskUpdate_init, TaskCreate_init. simpl.
    destruct (title_ok x && description_ok d)%bool; split; intros [? E];
      try discriminate; eexists; reflexivity.
Qed.

(** An update of an existing task with the empty title. *)
Lemma update_revalidates_witness :
  update 2000 1 (Some (Some EmptyString)) None None None None sample_db
  = (Raise ValidationError, sample_db).
Proof.
  apply (proj1 (update_revalidates sample_db 2000 1 (Some (Some EmptyString))
                                   None None None None)).
  left. exists EmptyString. split; [reflexivity | left; reflexivity].
Defined.

(** ** Absent ids, deletion, toggling *)

Lemma toggle_completed_found now k s t :
  find (has_id k) (rows s) = Some t ->
  toggle_completed now k s =
  (Ok (Some (with_updated_at now (with_completed (negb (completed t)) t))),
   {| rows := replace_row k (with_updated_at now (with_completed (negb (completed t)) t))
                          (rows s);
      next_id := next_id s |}).
Proof.
  intros Hf. unfold toggle_completed, bind, session_get. rewrite Hf. reflexivity.
Qed.

(** C5: for an id that no row carries, [get_task], [update_task] and
    [toggle_completed] return [None] and [delete_task] returns [false],
    none of them raising and all leaving the table as it was; for an id
    that a row carries, [delete_task] returns [true] and a later
    [get_task] of that id returns [None]. *)
Theorem not_found_and_delete :
  forall (s : Db) (k : Z),
    (~ In (Some k) (map id (rows s)) ->
     get_task k s = (Ok None, s) /\
     (forall now u, update_task now k u s = (Ok None, s)) /\
     (forall now, toggle_completed now k s = (Ok None, s)) /\
     delete_task k s = (Ok false, s)) /\
    (In (Some k) (map id (rows s)) ->
     exists s', delete_task k s = (Ok true, s') /\
                get_task k s' = (Ok None, s')).
Proof.
  intros s k. split.
  - intros Habs. apply find_has_id_none in Habs.
    split; [|split; [|split]].
    + unfold get_task, session_get. rewrite Habs. reflexivity.
    + intros now u. apply update_task_missing. exact Habs.
    + intros now. unfold toggle_completed, bind, session_get.
      rewrite Habs. reflexivity.
    + unfold delete_task, bind, session_get. rewrite Habs. reflexivity.
  - intros Hin. destruct (in_ids_find _ _ Hin) as [t Hf].
    eexists. split.
    + unfold delete_task, bind, session_get. rewrite Hf. reflexivity.
    + unfold get_task, session_get. simpl. rewrite find_delete. reflexivity.
Qed.

Lemma not_found_and_delete_witness :
  (get_task 999 sample_db = (Ok None, sample_db) /\
   delete_task 999 sample_db = (Ok false, sample_db)) /\
  exists s', delete_task 1 sample_db = (Ok true, s') /\
             get_task 1 s' = (Ok None, s').
Proof.
  split.
  - destruct (proj1 (not_found_and_delete sample_db 999)) as (Hg & _ & _ & Hd).
    + simpl. intros [H|[]]. discriminate.
    + split; assumption.
  - apply (proj2 (not_found_and_delete sample_db 1)). simpl. left. reflexivity.
Defined.

(** C6, as the code has it: on an existing task, two calls of
    [toggle_completed] in a row bring the completed flag back to its
    original value (the first call having inverted it), and each call sets
    [updated_at] to its own clock reading; a call strictly increases
    [updated_at] exactly when its reading is later than the value it
    finds. *)
Theorem toggle_twice :
  forall (s : Db) (k : Z) (t : Task) (now1 now2 : datetime),
    get_task k s = (Ok (Some t), s) ->
    exists t1 s1 t2 s2,
      toggle_completed now1 k s = (Ok (Some t1), s1) /\
      toggle_completed now2 k s1 = (Ok (Some t2), s2) /\
      completed t1 = negb (completed t) /\
      completed t2 = completed t /\
      updated_at t1 = now1 /\
      updated_at t2 = now2 /\
      (updated_at t < updated_at t1 <-> updated_at t < now1) /\
      (updated_at t1 < updated_at t2 <-> now1 < now2) /\
      get_task k s1 = (Ok (Some t1), s1) /\
      get_task k s2 = (Ok (Some t2), s2) /\
      t2 = with_updated_at now2 t.
Proof.
  intros s k t now1 now2 Hget. apply get_task_found in Hget.
  set (t1 := with_updated_at now1 (with_completed (negb (completed t)) t)).
  set (s1 := {| rows := replace_row k t1 (rows s); next_id := next_id s |}).
  assert (find (has_id k) (rows s1) = Some t1) as Hf1.
  { apply (find_replaced k t); [assumption | reflexivity]. }
  set (t2 := with_updated_at now2 (with_completed (negb (completed t1)) t1)).
  set (s2 := {| rows := replace_row k t2 (rows s1); next_id := next_id s1 |}).
  assert (find (has_id k) (rows s2) = Some t2) as Hf2.
  { apply (find_replaced k t1); [assumption | reflexivity]. }
  exists t1, s1, t2, s2.
  split; [apply toggle_completed_found; exact Hget|].
  split; [apply toggle_completed_found; exact Hf1|].
  split; [reflexivity|].
  split; [simpl; apply negb_involutive|].
  split; [reflexivity|].
  split; [reflexivity|].
  split; [reflexivity|].
  split; [reflexivity|].
  split; [apply get_task_found; exact Hf1|].
  split; [apply get_task_found; exact Hf2|].
  unfold t2, t1, with_updated_at, with_completed. simpl.
  rewrite negb_involutive. reflexivity.
Qed.

Lemma toggle_twice_witness :
  exists t1 s1 t2 s2,
    toggle_completed 2000 1 sample_db = (Ok (Some t1), s1) /\
    toggle_completed 3000 1 s1 = (Ok (Some t2), s2) /\
    completed t1 = true /\ completed t2 = false /\
    updated_at sample_task < updated_at t1 /\ updated_at t1 < updated_at t2.
Proof.
  destruct (toggle_twice sample_db 1 sample_task 2000 3000)
    as (t1 & s1 & t2 & s2 & Ha & Hb & Hc & Hd & _ & _ & He & Hf & _).
  - reflexivity.
  - exists t1, s1, t2, s2. split; [exact Ha|]. split; [exact Hb|].
    split; [exact Hc|]. split; [exact Hd|].
    split; [apply He; simpl; lia | apply Hf; lia].
Defined.

(** C6 as stated does not hold: two toggles made at the same clock reading
    bring the flag back, and the second leaves [updated_at] equal to what
    the first wrote. *)
Lemma toggle_twice_same_reading :
  exists t1 s1 t2 s2,
    toggle_completed 2000 1 sample_db = (Ok (Some t1), s1) /\
    toggle_completed 2000 1 s1 = (Ok (Some t2), s2) /\
    completed t2 = completed sample_task /\
    ~ updated_at t1 < updated_at t2.
Proof.
  exists (with_updated_at 2000 (with_completed true sample_task)).
  exists {| rows := [with_updated_at 2000 (with_completed true sample_task)];
            next_id := 2 |}.
  exists (with_updated_at 2000 sample_task).
  exists {| rows := [with_updated_at 2000 sample_task]; next_id := 2 |}.
  split; [vm_compute; reflexivity|]. split; [vm_compute; reflexivity|].
  split; [reflexivity|]. simpl. lia.
Qed.

(** ** Listings *)

Lemma select_result scan p key s :
  select_where_order_by_desc scan p key s
  = (Ok (sort_desc key (filter p (scan (rows s)))), s).
Proof. reflexivity. Qed.

Lemma select_perm scan p key s :
  scans_all scan ->
  Permutation (sort_desc key (filter p (scan (rows s)))) (filter p (rows s)).
Proof.
  intros Hscan. rewrite sort_desc_perm. apply filter_perm, Hscan.
Qed.

(** C7: whatever the order in which the engine reads the rows,
    [get_completed_tasks] returns exactly the rows with [completed = true]
    in descending order of [updated_at], [get_pending_tasks] returns
    exactly the rows with [completed = false] in descending order of
    [created_at], and the two results together are the result of
    [get_all_tasks], no task being in both. *)
Theorem completed_pending_partition :
  forall (scan : list Task -> list Task) (s : Db),
    scans_all scan ->
    exists cs ps al,
      get_completed_tasks scan s = (Ok cs, s) /\
      get_pending_tasks scan s = (Ok ps, s) /\
      get_all_tasks scan s = (Ok al, s) /\
      Permutation cs (filter completed (rows s)) /\
      desc_by updated_at cs /\
      Permutation ps (filter (fun t => negb (completed t)) (rows s)) /\
      desc_by created_at ps /\
      (forall t, In t cs <-> In t (rows s) /\ completed t = true) /\
      (forall t, In t ps <-> In t (rows s) /\ completed t = false) /\
      Permutation (cs ++ ps) al /\
      (forall t, ~ (In t cs /\ In t ps)).
Proof.
  intros scan s Hscan.
  set (pending := fun t : Task => Bool.eqb (completed t) false).
  assert (forall l, filter pending l = filter (fun t => negb (completed t)) l) as Hneg.
  { intros l. apply filter_ext. intros t. unfold pending. destruct (completed t); reflexivity. }
  assert (forall t, In t (sort_desc updated_at (filter completed (scan (rows s))))
                    <-> In t (rows s) /\ completed t = true) as Hcs.
  { intros t. rewrite sort_desc_in, filter_In.
    split; intros [Hin Hc]; (split; [|exact Hc]).
    - exact (Permutation_in _ (Hscan _) Hin).
    - exact (Permutation_in _ (Permutation_sym (Hscan _)) Hin). }
  assert (forall t, In t (sort_desc created_at (filter pending (scan (rows s))))
                    <-> In t (rows s) /\ completed t = false) as Hps.
  { intros t. rewrite sort_desc_in, filter_In. unfold pending.
    split; intros [Hin Hc].
    - split; [exact (Permutation_in _ (Hscan _) Hin)|].
      destruct (completed t); [discriminate | reflexivity].
    - split; [exact (Permutation_in _ (Permutation_sym (Hscan _)) Hin)|].
      rewrite Hc. reflexivity. }
  eexists. eexists. eexists.
  split; [apply select_result|]. split; [apply select_result|].
  split; [apply select_result|].
  split; [apply select_perm; exact Hscan|].
  split; [apply sort_desc_sorted|].
  split; [rewrite <- Hneg; apply select_perm; exact Hscan|].
  split; [apply sort_desc_sorted|].
  split; [exact Hcs|]. split; [exact Hps|]. split.
  - rewrite !sort_desc_perm, filter_all.
    apply (filter_partition_perm completed).
  - intros t [H1 H2]. apply Hcs in H1. apply Hps in H2.
    destruct H1 as [_ H1], H2 as [_ H2]. congruence.
Qed.

Lemma insertion_order_scans_all : scans_all insertion_order.
Proof.
  intros l. reflexivity.
Qed.

Lemma rev_scans_all : scans_all (@rev Task).
Proof.
  intros l. symmetry. apply Permutation_rev.
Qed.

Lemma completed_pending_partition_witness :
  exists cs ps al,
    get_completed_tasks insertion_order mixed_db = (Ok cs, mixed_db) /\
    get_pending_tasks insertion_order mixed_db = (Ok ps, mixed_db) /\
    get_all_tasks insertion_order mixed_db = (Ok al, mixed_db) /\
    Permutation (cs ++ ps) al.
Proof.
  destruct (completed_pending_partition insertion_order mixed_db insertion_order_scans_all)
    as (cs & ps & al & H1 & H2 & H3 & _ & _ & _ & _ & _ & _ & H4 & _).
  exists cs, ps, al. repeat split; assumption.
Defined.

(** C8, as the code has it: [get_all_tasks] returns every row of the table,
    in descending order of [created_at]; rows with the same [created_at]
    come in the order in which the engine read them, the statement naming
    no second sort key; on a table without rows the result is empty. *)
Theorem get_all_tasks_newest_first :
  forall (scan : list Task -> list Task) (s : Db),
    scans_all scan ->
    exists res,
      get_all_tasks scan s = (Ok res, s) /\
      Permutation res (rows s) /\
      desc_by created_at res /\
      ties_in_order created_at (scan (rows s)) res /\
      (rows s = [] -> res = []).
Proof.
  intros scan s Hscan. eexists. split; [apply select_result|].
  rewrite filter_all. split; [|split; [|split]].
  - rewrite sort_desc_perm. apply Hscan.
  - apply sort_desc_sorted.
  - apply sort_desc_stable.
  - intros E. rewrite E.
    rewrite (Permutation_nil (Permutation_sym (Hscan []))). reflexivity.
Qed.

Lemma get_all_tasks_newest_first_witness :
  exists res,
    get_all_tasks insertion_order mixed_db = (Ok res, mixed_db) /\
    Permutation res (rows mixed_db) /\
    desc_by created_at res.
Proof.
  destruct (get_all_tasks_newest_first insertion_order mixed_db insertion_order_scans_all)
    as (res & H1 & H2 & H3 & _).
  exists res. repeat split; assumption.
Defined.

(** C8 as stated does not hold: with two rows of equal [created_at], an
    engine that reads the table backwards lists the later insertion first,
    one that reads it forwards lists the earlier one first; the order of
    ties is the engine's, not the insertion order. *)
Lemma get_all_tasks_ties_follow_engine :
  rows tied_db = [tied_first; tied_second] /\
  created_at tied_first = created_at tied_second /\
  scans_all (@rev Task) /\
  get_all_tasks (@rev Task) tied_db = (Ok [tied_second; tied_first], tied_db) /\
  get_all_tasks insertion_order tied_db = (Ok [tied_first; tied_second], tied_db) /\
  ~ ties_in_order created_at (rows tied_db) [tied_second; tied_first].
Proof.
  split; [reflexivity|]. split; [reflexivity|]. split; [exact rev_scans_all|].
  split; [reflexivity|]. split; [reflexivity|].
  intros H. specialize (H 1000). vm_compute in H. discriminate.
Qed.

(** ** Reachable tables are well formed *)

Lemma wf_create s now_created now_updated ttl dkw pkw due :
  wf s -> wf (snd (create now_created now_updated ttl dkw pkw due s)).
Proof.
  intros Hwf. unfold create, bind, lift.
  destruct (TaskCreate_init ttl dkw pkw due) as [d|e]; [|exact Hwf].
  apply wf_session_insert, Hwf.
Qed.

Lemma setattr_all_id l :
  forall t t', setattr_all l t = Some t' -> id t' = id t.
Proof.
  unfold setattr_all. induction l as [|a l IH]; simpl; intros t t' E.
  - congruence.
  - destruct (setattr a t) as [t1|] eqn:E1.
    + rewrite (IH t1 t' E).
      destruct a as [[x|]|[d|]|[b|]|[p|]|du]; simpl in E1;
        try discriminate; injection E1 as <-; reflexivity.
    + exfalso. clear -E. induction l as [|b l IHl]; simpl in E; [discriminate | auto].
Qed.

Lemma wf_update_task s now k u :
  wf s -> wf (snd (update_task now k u s)).
Proof.
  intros Hwf. destruct (find (has_id k) (rows s)) as [t|] eqn:Hf.
  - pose proof (find_has_id_some _ _ _ Hf) as [Hin Hid].
    destruct (setattr_all (model_dump_exclude_unset u) t) as [t1|] eqn:Hset.
    + rewrite (update_task_found now k u s t t1 Hf Hset). simpl.
      apply wf_replace_row; [exact Hwf | |].
      * simpl. rewrite (setattr_all_id _ _ _ Hset). exact Hid.
      * rewrite <- Hid. apply in_map, Hin.
    + rewrite (update_task_null now k u s t Hf Hset). exact Hwf.
  - rewrite (update_task_missing now k u s Hf). exact Hwf.
Qed.

Lemma wf_toggle_completed s now k :
  wf s -> wf (snd (toggle_completed now k s)).
Proof.
  intros Hwf. destruct (find (has_id k) (rows s)) as [t|] eqn:Hf.
  - pose proof (find_has_id_some _ _ _ Hf) as [Hin Hid].
    rewrite (toggle_completed_found now k s t Hf). simpl.
    apply wf_replace_row; [exact Hwf | exact Hid |].
    rewrite <- Hid. apply in_map, Hin.
  - unfold toggle_completed, bind, session_get. rewrite Hf. exact Hwf.
Qed.

Lemma wf_delete_task s k :
  wf s -> wf (snd (delete_task k s)).
Proof.
  intros Hwf. unfold delete_task, bind, session_get.
  destruct (find (has_id k) (rows s)) as [t|]; [|exact Hwf].
  exact (wf_session_delete s k Hwf).
Qed.

Example scenario_list_all :
  option_map (map title)
    (match fst (get_all_tasks insertion_order scenario_db) with
     | Ok l => Some l | Raise _ => None end)
  = Some ["Ship release"; "Buy milk"]%string.
Proof. reflexivity. Qed.

Example scenario_after_toggle :
  let s := snd (toggle_completed 30 1 scenario_db) in
  match fst (get_pending_tasks insertion_order s),
        fst (get_completed_tasks insertion_order s) with
  | Ok ps, Ok cs => map title ps = ["Ship release"%string] /\
                    map title cs = ["Buy milk"%string]
  | _, _ => False
  end.
Proof. simpl. split; reflexivity. Qed.

(** ** Partial update, field by field *)

Lemma TaskUpdate_init_ok tkw dkw ckw pkw duekw :
  (forall x, tkw = Some (Some x) -> (1 <= String.length x <= 200)%nat) ->
  (forall d, dkw = Some (Some d) -> (String.length d <= 1000)%nat) ->
  TaskUpdate_init tkw dkw ckw pkw duekw = Ok (mkTaskUpdate tkw dkw ckw pkw duekw).
Proof.
  intros Ht Hd. unfold TaskUpdate_init.
  assert (opt_field_ok title_ok tkw = true) as ->.
  { destruct tkw as [[x|]|]; try reflexivity.
    apply str_length_ok_spec, Ht. reflexivity. }
  assert (opt_field_ok description_ok dkw = true) as ->.
  { destruct dkw as [[d|]|]; try reflexivity.
    apply str_length_ok_spec. specialize (Hd d eq_refl). lia. }
  reflexivity.
Qed.

Lemma update_validated now k tkw dkw ckw pkw duekw s :
  (forall x, tkw = Some (Some x) -> (1 <= String.length x <= 200)%nat) ->
  (forall d, dkw = Some (Some d) -> (String.length d <= 1000)%nat) ->
  update now k tkw dkw ckw pkw duekw s
  = update_task now k (mkTaskUpdate tkw dkw ckw pkw duekw) s.
Proof.
  intros Ht Hd. unfold update, bind, lift.
  rewrite (TaskUpdate_init_ok _ _ ckw pkw duekw Ht Hd). reflexivity.
Qed.

Lemma setattr_all_dump t tkw dkw ckw pkw duekw :
  tkw <> Some None -> dkw <> Some None -> ckw <> Some None -> pkw <> Some None ->
  setattr_all (model_dump_exclude_unset (mkTaskUpdate tkw dkw ckw pkw duekw)) t
  = Some (mkTask (id t)
            (match tkw with Some (Some x) => x | _ => title t end)
            (match dkw with Some (Some d) => d | _ => description t end)
            (match ckw with Some (Some b) => b | _ => completed t end)
            (match pkw with Some (Some p) => p | _ => priority t end)
            (match duekw with Some v => v | None => due_date t end)
            (created_at t) (updated_at t)).
Proof.
  intros H1 H2 H3 H4. destruct t.
  destruct tkw as [[x|]|]; try congruence;
    destruct dkw as [[d|]|]; try congruence;
    destruct ckw as [[b|]|]; try congruence;
    destruct pkw as [[p|]|]; try congruence;
    destruct duekw as [v|]; reflexivity.
Qed.

Lemma setattr_all_dump_null t tkw dkw ckw pkw duekw :
  tkw = Some None \/ dkw = Some None \/ ckw = Some None \/ pkw = Some None ->
  setattr_all (model_dump_exclude_unset (mkTaskUpdate tkw dkw ckw pkw duekw)) t = None.
Proof.
  intros H.
  destruct tkw as [[x|]|], dkw as [[d|]|], ckw as [[b|]|], pkw as [[p|]|], duekw as [v|];
    try reflexivity; exfalso; destruct H as [H|[H|[H|H]]]; discriminate.
Qed.

Lemma setattr_all_created_at l :
  forall t t', setattr_all l t = Some t' -> created_at t' = created_at t.
Proof.
  unfold setattr_all. induction l as [|a l IH]; simpl; intros t t' E.
  - congruence.
  - destruct (setattr a t) as [t1|] eqn:E1.
    + rewrite (IH t1 t' E).
      destruct a as [[x|]|[d|]|[b|]|[p|]|du]; simpl in E1;
        try discriminate; injection E1 as <-; reflexivity.
    + exfalso. clear -E. induction l as [|b l IHl]; simpl in E; [discriminate | auto].
Qed.

Lemma setattr_all_updated_at l :
  forall t t', setattr_all l t = Some t' -> updated_at t' = updated_at t.
Proof.
  unfold setattr_all. induction l as [|a l IH]; simpl; intros t t' E.
  - congruence.
  - destruct (setattr a t) as [t1|] eqn:E1.
    + rewrite (IH t1 t' E).
      destruct a as [[x|]|[d|]|[b|]|[p|]|du]; simpl in E1;
        try discriminate; injection E1 as <-; reflexivity.
    + exfalso. clear -E. induction l as [|b l IHl]; simpl in E; [discriminate | auto].
Qed.

Lemma length_replace_row k t l : List.length (replace_row k t l) = List.length l.
Proof.
  unfold replace_row. apply length_map.
Qed.

(** X1: an update of an existing task whose strings pass validation and
    which passes no required column as [None] succeeds; each field that is
    passed takes the passed value ([due_date] is cleared when passed as
    [None]), each field that is not passed keeps its value, [id] and
    [created_at] never change, [updated_at] is the clock reading, and no
    other row and no row count changes. *)
Theorem update_applies_passed_fields :
  forall (s : Db) (now : datetime) (k : Z) (t : Task)
         (tkw dkw : option (option string)) (ckw : option (option bool))
         (pkw : option (option TaskPriority)) (duekw : option (option date)),
    get_task k s = (Ok (Some t), s) ->
    (forall x, tkw = Some (Some x) -> (1 <= String.length x <= 200)%nat) ->
    (forall d, dkw = Some (Some d) -> (String.length d <= 1000)%nat) ->
    tkw <> Some None -> dkw <> Some None -> ckw <> Some None -> pkw <> Some None ->
    exists t' s',
      update now k tkw dkw ckw pkw duekw s = (Ok (Some t'), s') /\
      get_task k s' = (Ok (Some t'), s') /\
      id t' = id t /\
      title t' = match tkw with Some (Some x) => x | _ => title t end /\
      description t' = match dkw with Some (Some d) => d | _ => description t end /\
      completed t' = match ckw with Some (Some b) => b | _ => completed t end /\
      priority t' = match pkw with Some (Some p) => p | _ => priority t end /\
      due_date t' = match duekw with Some v => v | None => due_date t end /\
      created_at t' = created_at t /\
      updated_at t' = now /\
      (forall j, j <> k -> fst (get_task j s') = fst (get_task j s)) /\
      List.length (rows s') = List.length (rows s).
Proof.
  intros s now k t tkw dkw ckw pkw duekw Hget Ht Hd N1 N2 N3 N4.
  apply get_task_found in Hget.
  pose proof (find_has_id_some _ _ _ Hget) as [_ Hid].
  pose proof (setattr_all_dump t tkw dkw ckw pkw duekw N1 N2 N3 N4) as Hset.
  eexists. eexists. split.
  { rewrite (update_validated now k tkw dkw ckw pkw duekw s Ht Hd).
    apply (update_task_found now k _ s t _ Hget Hset). }
  split.
  { apply get_task_found. cbn [rows]. apply (find_replaced k t); [assumption | reflexivity]. }
  cbn -[replace_row]. repeat (split; [reflexivity|]). split.
  - intros j Hj. unfold get_task, session_get. cbn [fst rows].
    rewrite find_replace_row_other; [reflexivity | assumption | exact Hid].
  - apply length_replace_row.
Qed.

(** Clearing the due date of the sample task and nothing else. *)
Lemma update_applies_passed_fields_witness :
  exists t' s',
    update 2000 2 None None None None (Some None)
           {| rows := [done_task]; next_id := 3 |} = (Ok (Some t'), s') /\
    due_date t' = None /\ title t' = title done_task.
Proof.
  destruct (update_applies_passed_fields {| rows := [done_task]; next_id := 3 |}
              2000 2 done_task None None None None (Some None))
    as (t' & s' & H & _ & _ & Ht & _ & _ & _ & Hd & _).
  - reflexivity.
  - discriminate.
  - discriminate.
  - discriminate.
  - discriminate.
  - discriminate.
  - discriminate.
  - exists t', s'. split; [exact H|]. split; [exact Hd | exact Ht].
Defined.

(** X2: an update of an existing task that passes [None] for [title],
    [description], [completed] or [priority] (columns that are not
    nullable) passes validation, fails at the commit with an integrity
    error, and leaves the table as it was. *)
Theorem update_null_in_required_column :
  forall (s : Db) (now : datetime) (k : Z) (t : Task)
         (tkw dkw : option (option string)) (ckw : option (option bool))
         (pkw : option (option TaskPriority)) (duekw : option (option date)),
    get_task k s = (Ok (Some t), s) ->
    (forall x, tkw = Some (Some x) -> (1 <= String.length x <= 200)%nat) ->
    (forall d, dkw = Some (Some d) -> (String.length d <= 1000)%nat) ->
    tkw = Some None \/ dkw = Some None \/ ckw = Some None \/ pkw = Some None ->
    update now k tkw dkw ckw pkw duekw s = (Raise IntegrityError, s).
Proof.
  intros s now k t tkw dkw ckw pkw duekw Hget Ht Hd Hnull.
  apply get_task_found in Hget.
  rewrite (update_validated now k tkw dkw ckw pkw duekw s Ht Hd).
  apply (update_task_null now k _ s t Hget).
  apply setattr_all_dump_null, Hnull.
Qed.

Lemma update_null_in_required_column_witness :
  update 2000 1 (Some None) None None None None sample_db
  = (Raise IntegrityError, sample_db).
Proof.
  apply (update_null_in_required_column sample_db 2000 1 sample_task
           (Some None) None None None None).
  - reflexivity.
  - discriminate.
  - discriminate.
  - left. reflexivity.
Defined.

(** X3: on an existing task, [toggle_completed] is the update that passes
    only [completed], with the negation of the stored flag: same result,
    same table. *)
Theorem toggle_is_update_of_completed :
  forall (s : Db) (now : datetime) (k : Z) (t : Task),
    get_task k s = (Ok (Some t), s) ->
    toggle_completed now k s
    = update now k None None (Some (Some (negb (completed t)))) None None s.
Proof.
  intros s now k t Hget. apply get_task_found in Hget.
  rewrite (toggle_completed_found now k s t Hget).
  unfold update, bind, lift, TaskUpdate_init. cbn [opt_field_ok andb].
  symmetry.
  apply (update_task_found now k _ s t (with_completed (negb (completed t)) t) Hget).
  reflexivity.
Qed.

Lemma toggle_is_update_of_completed_witness :
  toggle_completed 2000 1 sample_db
  = update 2000 1 None None (Some (Some true)) None None sample_db.
Proof.
  exact (toggle_is_update_of_completed sample_db 2000 1 sample_task eq_refl).
Defined.

(** ** Deletion *)

Lemma find_delete_other k j l :
  j <> k ->
  find (has_id j) (filter (fun r => negb (has_id k r)) l) = find (has_id j) l.
Proof.
  intros Hjk. induction l as [|r l IH]; [reflexivity|].
  cbn [filter find]. destruct (has_id k r) eqn:Ek; cbn [negb].
  - assert (has_id j r = false) as ->; [|exact IH].
    apply has_id_true in Ek. unfold has_id. rewrite Ek.
    apply Z.eqb_neq. congruence.
  - cbn [find]. destruct (has_id j r); [reflexivity | exact IH].
Qed.

Lemma filter_absent_id k l :
  ~ In (Some k) (map id l) -> filter (fun r => negb (has_id k r)) l = l.
Proof.
  induction l as [|r l IH]; [reflexivity|]. cbn [map filter]. intros H.
  destruct (has_id k r) eqn:E.
  - exfalso. apply H. left. apply has_id_true, E.
  - cbn [negb]. rewrite IH; [reflexivity|]. intros Hin. apply H. right. exact Hin.
Qed.

Lemma length_delete_unique k l :
  NoDup (map id l) -> In (Some k) (map id l) ->
  S (List.length (filter (fun r => negb (has_id k r)) l)) = List.length l.
Proof.
  induction l as [|r l IH]; cbn [map filter List.length]; intros Hnd Hin.
  - destruct Hin.
  - inversion Hnd as [|x l' Hx Hl]; subst.
    destruct (has_id k r) eqn:E; cbn [negb].
    + apply has_id_true in E. rewrite E in Hx.
      rewrite (filter_absent_id k l Hx). reflexivity.
    + cbn [List.length]. f_equal. apply IH; [exact Hl|].
      destruct Hin as [Hin|Hin]; [|exact Hin].
      apply has_id_true in Hin. congruence.
Qed.

(** X4: on a well-formed table, deleting an id that a row carries removes
    exactly one row, leaves what [get_task] returns for every other id as
    it was, does not touch the id counter, and a second delete of the same
    id returns [false] and changes nothing. *)
Theorem delete_removes_only_that_row :
  forall (s : Db) (k : Z),
    wf s ->
    In (Some k) (map id (rows s)) ->
    exists s',
      delete_task k s = (Ok true, s') /\
      S (List.length (rows s')) = List.length (rows s) /\
      (forall j, j <> k -> fst (get_task j s') = fst (get_task j s)) /\
      next_id s' = next_id s /\
      delete_task k s' = (Ok false, s').
Proof.
  intros s k [Hnd _] Hin. destruct (in_ids_find _ _ Hin) as [t Hf].
  eexists. split.
  { unfold delete_task, bind, session_get. rewrite Hf. reflexivity. }
  cbn [rows next_id]. split; [apply length_delete_unique; assumption|].
  split.
  { intros j Hj. unfold get_task, session_get. cbn [fst rows].
    rewrite find_delete_other by exact Hj. reflexivity. }
  split; [reflexivity|].
  unfold delete_task, bind, session_get. cbn [rows].
  rewrite find_delete. reflexivity.
Qed.

Lemma wf_mixed_db : wf mixed_db.
Proof.
  split; cbn.
  - constructor; [intros [H|[]]; discriminate|].
    constructor; [intros []|constructor].
  - constructor; [exists 1; split; [reflexivity | lia]|].
    constructor; [exists 2; split; [reflexivity | lia]|constructor].
Qed.

Lemma delete_removes_only_that_row_witness :
  exists s',
    delete_task 1 mixed_db = (Ok true, s') /\
    S (List.length (rows s')) = List.length (rows mixed_db) /\
    delete_task 1 s' = (Ok false, s').
Proof.
  destruct (delete_removes_only_that_row mixed_db 1 wf_mixed_db)
    as (s' & H1 & H2 & _ & _ & H3).
  - cbn. left. reflexivity.
  - exists s'. split; [exact H1|]. split; [exact H2 | exact H3].
Defined.

(** ** What a call does to the table *)

Lemma create_table nc nu ttl dkw pkw due s :
  snd (create nc nu ttl dkw pkw due s) = s \/
  exists d, TaskCreate_init ttl dkw pkw due = Ok d /\
            snd (create nc nu ttl dkw pkw due s)
            = {| rows := rows s ++ [with_id (Some (next_id s)) (Task_init nc nu d)];
                 next_id := next_id s + 1 |}.
Proof.
  unfold create, bind, lift.
  destruct (TaskCreate_init ttl dkw pkw due) as [d|e]; [right | left; reflexivity].
  exists d. split; reflexivity.
Qed.

Lemma update_table now k tkw dkw ckw pkw duekw s :
  snd (update now k tkw dkw ckw pkw duekw s) = s \/
  exists t t1 u,
    TaskUpdate_init tkw dkw ckw pkw duekw = Ok u /\
    find (has_id k) (rows s) = Some t /\
    setattr_all (model_dump_exclude_unset u) t = Some t1 /\
    snd (update now k tkw dkw ckw pkw duekw s)
    = {| rows := replace_row k (with_updated_at now t1) (rows s);
         next_id := next_id s |}.
Proof.
  unfold update, bind, lift.
  destruct (TaskUpdate_init tkw dkw ckw pkw duekw) as [u|e] eqn:Eu; [|left; reflexivity].
  destruct (find (has_id k) (rows s)) as [t|] eqn:Hf.
  - destruct (setattr_all (model_dump_exclude_unset u) t) as [t1|] eqn:Hset.
    + right. exists t, t1, u.
      rewrite (update_task_found now k u s t t1 Hf Hset).
      split; [reflexivity|]. split; [reflexivity|]. split; [exact Hset | reflexivity].
    + left. rewrite (update_task_null now k u s t Hf Hset). reflexivity.
  - left. rewrite (update_task_missing now k u s Hf). reflexivity.
Qed.

Lemma toggle_table now k s :
  snd (toggle_completed now k s) = s \/
  exists t,
    find (has_id k) (rows s) = Some t /\
    snd (toggle_completed now k s)
    = {| rows := replace_row k (with_updated_at now (with_completed (negb (completed t)) t))
                             (rows s);
         next_id := next_id s |}.
Proof.
  destruct (find (has_id k) (rows s)) as [t|] eqn:Hf.
  - right. exists t. rewrite (toggle_completed_found now k s t Hf).
    split; reflexivity.
  - left. unfold toggle_completed, bind, session_get. rewrite Hf. reflexivity.
Qed.

Lemma delete_table k s :
  (find (has_id k) (rows s) = None /\ snd (delete_task k s) = s) \/
  snd (delete_task k s)
  = {| rows := filter (fun r => negb (has_id k r)) (rows s); next_id := next_id s |}.
Proof.
  unfold delete_task, bind, session_get.
  destruct (find (has_id k) (rows s)) as [t|]; [right | left; split]; reflexivity.
Qed.

Lemma find_app_found (f : Task -> bool) l l' t :
  find f l = Some t -> find f (l ++ l') = Some t.
Proof.
  induction l as [|r l IH]; cbn [find app]; [discriminate|].
  destruct (f r); [auto | exact IH].
Qed.

(** X5: whatever call is made, a stored task keeps its [id] and its
    [created_at]; it stops being stored only through [delete_task] of its
    own id. *)
Theorem stored_task_keeps_identity :
  forall (c : call) (s : Db) (j : Z) (t : Task),
    fst (get_task j s) = Ok (Some t) ->
    (exists t', fst (get_task j (step c s)) = Ok (Some t') /\
                id t' = id t /\ created_at t' = created_at t) \/
    (c = call_delete j /\ fst (get_task j (step c s)) = Ok None).
Proof.
  intros c s j t Hget. unfold get_task, session_get in *. cbn [fst] in *.
  injection Hget as Hf.
  assert (forall k t1, id t1 = Some k -> created_at t1 = created_at
            match find (has_id k) (rows s) with Some r => r | None => t1 end ->
            exists t', Ok (find (has_id j) (replace_row k t1 (rows s))) = Ok (Some t') /\
                       id t' = id t /\ created_at t' = created_at t) as Hrep.
  { intros k t1 Hid Hcr. destruct (Z.eq_dec j k) as [->|Hjk].
    - exists t1. rewrite find_replace_row by (apply has_id_true; exact Hid).
      rewrite Hf in *. split; [reflexivity|]. split; [|exact Hcr].
      apply find_has_id_some in Hf as [_ Hf]. congruence.
    - exists t. rewrite (find_replace_row_other k j t1 _ Hjk Hid), Hf.
      repeat split; reflexivity. }
  destruct c as [nc nu ttl dkw pkw due|now k tkw dkw ckw pkw duekw|now k|k]; cbn [step].
  - left. exists t. split; [|split; reflexivity].
    destruct (create_table nc nu ttl dkw pkw due s) as [ -> | [d [_ -> ] ] ]; cbn [rows].
    + rewrite Hf. reflexivity.
    + rewrite (find_app_found _ _ _ _ Hf). reflexivity.
  - left. destruct (update_table now k tkw dkw ckw pkw duekw s)
      as [ -> | (t0 & t1 & u & _ & Hf0 & Hset & -> ) ]; cbn [rows].
    + exists t. rewrite Hf. repeat split; reflexivity.
    + apply Hrep.
      * cbn. rewrite (setattr_all_id _ _ _ Hset).
        apply find_has_id_some in Hf0 as [_ Hf0]. exact Hf0.
      * rewrite Hf0. cbn. apply (setattr_all_created_at _ _ _ Hset).
  - left. destruct (toggle_table now k s) as [ -> | (t0 & Hf0 & -> ) ]; cbn [rows].
    + exists t. rewrite Hf. repeat split; reflexivity.
    + apply Hrep.
      * cbn. apply find_has_id_some in Hf0 as [_ Hf0]. exact Hf0.
      * rewrite Hf0. reflexivity.
  - destruct (Z.eq_dec j k) as [->|Hjk].
    + right. split; [reflexivity|].
      destruct (delete_table k s) as [ [Hnone _] | -> ]; [congruence|].
      cbn [rows]. rewrite find_delete. reflexivity.
    + left. exists t. split; [|split; reflexivity].
      destruct (delete_table k s) as [ [_ -> ] | -> ]; cbn [rows].
      * rewrite Hf. reflexivity.
      * rewrite (find_delete_other k j _ Hjk), Hf. reflexivity.
Qed.

Lemma stored_task_keeps_identity_witness :
  exists t',
    fst (get_task 1 (step (call_toggle 2000 1) sample_db)) = Ok (Some t') /\
    id t' = Some 1 /\ created_at t' = 1000.
Proof.
  destruct (stored_task_keeps_identity (call_toggle 2000 1) sample_db 1 sample_task eq_refl)
    as [(t' & H1 & H2 & H3)|[H _]].
  - exists t'. split; [exact H1|]. split; [exact H2 | exact H3].
  - discriminate.
Defined.

(** ** Invariants of every history of calls *)

Lemma wf_update s now k tkw dkw ckw pkw duekw :
  wf s -> wf (snd (update now k tkw dkw ckw pkw duekw s)).
Proof.
  intros Hwf. unfold update, bind, lift.
  destruct (TaskUpdate_init tkw dkw ckw pkw duekw) as [u|e]; [|exact Hwf].
  apply wf_update_task, Hwf.
Qed.

Lemma wf_step c s : wf s -> wf (step c s).
Proof.
  destruct c; cbn [step].
  - apply wf_create.
  - apply wf_update.
  - apply wf_toggle_completed.
  - apply wf_delete_task.
Qed.

(** X6: in every table reached from the empty one by calls of the service,
    whatever they returned, each row has an id, no two rows have the same
    id, and every id is below the store's counter. *)
Theorem reachable_tables_well_formed :
  forall cs : list call, wf (run cs empty_db).
Proof.
  intros cs. unfold run.
  assert (forall s, wf s -> wf (fold_left (fun s c => step c s) cs s)) as H.
  { induction cs as [|c cs IH]; intros s Hs; cbn [fold_left]; [exact Hs|].
    apply IH, wf_step, Hs. }
  apply H, wf_empty_db.
Qed.

Lemma Task_init_valid nc nu ttl dkw pkw due d :
  TaskCreate_init ttl dkw pkw due = Ok d ->
  forall i, task_valid (with_id i (Task_init nc nu d)).
Proof.
  unfold TaskCreate_init.
  destruct (title_ok ttl) eqn:Et; [|discriminate].
  destruct (description_ok match dkw with Some d0 => d0 | None => EmptyString end) eqn:Ed;
    [|discriminate].
  cbn [andb]. intros E. injection E as <-.
  intros i. split; cbn [with_id Task_init title description c_title c_description];
    assumption.
Qed.

Lemma rows_valid_step c s : rows_valid s -> rows_valid (step c s).
Proof.
  intros Hs. destruct c as [nc nu ttl dkw pkw due|now k tkw dkw ckw pkw duekw|now k|k];
    cbn [step].
  - destruct (create_table nc nu ttl dkw pkw due s) as [ -> | [d [Hd -> ] ] ]; [exact Hs|].
    unfold rows_valid. cbn [rows]. apply Forall_app. split; [exact Hs|].
    constructor; [|constructor]. apply (Task_init_valid nc nu _ _ _ _ d Hd).
  - unfold update, bind, lift.
    destruct (TaskUpdate_init tkw dkw ckw pkw duekw) as [u|e] eqn:E; [|exact Hs].
    apply update_task_keeps_valid; [|exact Hs].
    eapply TaskUpdate_init_valid; exact E.
  - destruct (toggle_table now k s) as [ -> | (t & Hf & -> ) ]; [exact Hs|].
    unfold rows_valid in *. cbn [rows]. unfold replace_row. apply Forall_map.
    apply find_has_id_some in Hf as [Hin _].
    rewrite Forall_forall in Hs. apply Forall_forall. intros r Hr.
    destruct (has_id k r); [exact (Hs t Hin) | exact (Hs r Hr)].
  - destruct (delete_table k s) as [ [_ -> ] | -> ]; [exact Hs|].
    unfold rows_valid in *. cbn [rows].
    rewrite Forall_forall in *. intros r Hr. apply filter_In in Hr. apply Hs, Hr.
Qed.

(** X7: in every table reached from the empty one by calls of the service
    made with request objects, every row has a title of 1 to 200 characters
    and a description of at most 1000. *)
Theorem reachable_rows_within_bounds :
  forall cs : list call,
    Forall (fun t => (1 <= String.length (title t) <= 200)%nat /\
                     (String.length (description t) <= 1000)%nat)
           (rows (run cs empty_db)).
Proof.
  intros cs.
  assert (forall s, rows_valid s -> rows_valid (run cs s)) as H.
  { unfold run. induction cs as [|c cs IH]; intros s Hs; cbn [fold_left]; [exact Hs|].
    apply IH, rows_valid_step, Hs. }
  specialize (H empty_db (Forall_nil _)).
  eapply Forall_impl; [|exact H].
  intros t [Ht Hd]. apply str_length_ok_spec in Ht, Hd. split; lia.
Qed.

Lemma timestamps_step c s last :
  Forall (fun t => created_at t <= updated_at t /\ updated_at t <= last) (rows s) ->
  forall cs, clock_monotone last (c :: cs) = true ->
  exists last',
    Forall (fun t => created_at t <= updated_at t /\ updated_at t <= last')
           (rows (step c s)) /\
    clock_monotone last' cs = true.
Proof.
  intros Hs cs Hc.
  assert (forall now, last <= now ->
            Forall (fun t => created_at t <= updated_at t /\ updated_at t <= now) (rows s))
    as Hweak.
  { intros now Hle. eapply Forall_impl; [|exact Hs]. cbn. intros t [H1 H2]. lia. }
  assert (forall now k t1, last <= now -> created_at t1 <= now -> updated_at t1 = now ->
            Forall (fun t => created_at t <= updated_at t /\ updated_at t <= now)
                   (replace_row k t1 (rows s))) as Hrep.
  { intros now k t1 Hle H1 H2. unfold replace_row. apply Forall_map.
    eapply Forall_impl; [|exact (Hweak now Hle)]. cbn. intros r Hr.
    destruct (has_id k r); [lia | exact Hr]. }
  destruct c as [nc nu ttl dkw pkw due|now k tkw dkw ckw pkw duekw|now k|k];
    cbn [clock_monotone step] in *.
  - apply andb_prop in Hc as [Hc Hcs]. apply andb_prop in Hc as [H1 H2].
    apply Z.leb_le in H1, H2. exists nu. split; [|exact Hcs].
    destruct (create_table nc nu ttl dkw pkw due s) as [ -> | [d [_ -> ] ] ].
    + apply Hweak. lia.
    + cbn [rows]. apply Forall_app. split; [apply Hweak; lia|].
      constructor; [|constructor]. cbn. lia.
  - apply andb_prop in Hc as [H1 Hcs]. apply Z.leb_le in H1.
    exists now. split; [|exact Hcs].
    destruct (update_table now k tkw dkw ckw pkw duekw s)
      as [ -> | (t & t1 & u & _ & Hf & Hset & -> ) ]; [apply Hweak, H1|].
    cbn [rows]. apply Hrep; [exact H1 | | reflexivity].
    cbn. rewrite (setattr_all_created_at _ _ _ Hset).
    apply find_has_id_some in Hf as [Hin _].
    rewrite Forall_forall in Hs. specialize (Hs t Hin). lia.
  - apply andb_prop in Hc as [H1 Hcs]. apply Z.leb_le in H1.
    exists now. split; [|exact Hcs].
    destruct (toggle_table now k s) as [ -> | (t & Hf & -> ) ]; [apply Hweak, H1|].
    cbn [rows]. apply Hrep; [exact H1 | | reflexivity].
    cbn. apply find_has_id_some in Hf as [Hin _].
    rewrite Forall_forall in Hs. specialize (Hs t Hin). lia.
  - exists last. split; [|exact Hc].
    destruct (delete_table k s) as [ [_ -> ] | -> ]; [exact Hs|].
    cbn [rows]. rewrite Forall_forall in *. intros r Hr.
    apply filter_In in Hr. apply Hs, Hr.
Qed.

(** X8: when the clock readings of a history of calls never go backwards,
    every row of the table it reaches from the empty one has
    [created_at <= updated_at]. *)
Theorem reachable_timestamps_ordered :
  forall (cs : list call) (start : datetime),
    clock_monotone start cs = true ->
    Forall timestamps_ordered (rows (run cs empty_db)).
Proof.
  intros cs.
  assert (forall s last,
            Forall (fun t => created_at t <= updated_at t /\ updated_at t <= last) (rows s) ->
            clock_monotone last cs = true ->
            Forall timestamps_ordered (rows (run cs s))) as H.
  { unfold run. induction cs as [|c cs IH]; intros s last Hs Hmono; cbn [fold_left].
    - eapply Forall_impl; [|exact Hs]. intros t [Ht _]. exact Ht.
    - destruct (timestamps_step c s last Hs cs Hmono) as [last' [Hs' Hm']].
      exact (IH (step c s) last' Hs' Hm'). }
  intros start Hc. apply (H empty_db start); [constructor | exact Hc].
Qed.

Lemma reachable_timestamps_ordered_witness :
  Forall timestamps_ordered
    (rows (run [call_create 10 11 "Buy milk" None None None;
                call_toggle 30 1;
                call_update 40 1 (Some (Some "Buy oat milk"%string)) None None None None]
               empty_db)).
Proof.
  apply (reachable_timestamps_ordered _ 0). reflexivity.
Defined.

(** ** The newest task comes first *)

Lemma sorted_head_is_strict_max (key : Task -> Z) (l : list Task) t others :
  Permutation l (t :: others) ->
  desc_by key l ->
  (forall r, In r others -> key r < key t) ->
  exists rest, l = t :: rest /\ Permutation rest others.
Proof.
  intros Hp Hs Hmax. destruct l as [|h r].
  - apply Permutation_nil in Hp. discriminate.
  - assert (In h (t :: others)) as Hh by (apply (Permutation_in _ Hp); left; reflexivity).
    destruct Hh as [<-|Hh].
    + exists r. split; [reflexivity|]. exact (Permutation_cons_inv Hp).
    + exfalso. specialize (Hmax h Hh).
      assert (In t (h :: r)) as Ht
        by (apply (Permutation_in _ (Permutation_sym Hp)); left; reflexivity).
      destruct Ht as [->|Ht]; [lia|].
      inversion Hs as [|h' r' _ Hall]; subst.
      rewrite Forall_forall in Hall. specialize (Hall t Ht). lia.
Qed.

(** X9: after a valid create whose [created_at] is later than that of
    every stored task, [get_all_tasks] lists the new task first, and the
    rest of the listing is the tasks stored before, whatever the order in
    which the engine reads the rows. *)
Theorem newest_task_listed_first :
  forall (scan : list Task -> list Task) (s : Db) (now_created now_updated : datetime)
         (ttl : string) (dkw : option string) (pkw : option TaskPriority)
         (due : option date),
    scans_all scan ->
    (1 <= String.length ttl <= 200)%nat ->
    (String.length (match dkw with Some d => d | None => EmptyString end) <= 1000)%nat ->
    (forall r, In r (rows s) -> created_at r < now_created) ->
    exists t s' rest,
      create now_created now_updated ttl dkw pkw due s = (Ok t, s') /\
      get_all_tasks scan s' = (Ok (t :: rest), s') /\
      Permutation rest (rows s).
Proof.
  intros scan s nc nu ttl dkw pkw due Hscan Ht Hd Hnew.
  assert (title_ok ttl = true) as Et by (apply str_length_ok_spec; exact Ht).
  assert (description_ok (match dkw with Some d => d | None => EmptyString end) = true)
    as Ed by (apply str_length_ok_spec; lia).
  set (d := {| c_title := ttl;
               c_description := match dkw with Some d => d | None => EmptyString end;
               c_priority := match pkw with Some p => p | None => MEDIUM end;
               c_due_date := due |}).
  set (t := with_id (Some (next_id s)) (Task_init nc nu d)).
  set (s' := {| rows := rows s ++ [t]; next_id := next_id s + 1 |}).
  assert (create nc nu ttl dkw pkw due s = (Ok t, s')) as Hcreate.
  { unfold create, bind, lift, TaskCreate_init. rewrite Et, Ed. reflexivity. }
  destruct (sorted_head_is_strict_max created_at
              (sort_desc created_at (filter (fun _ => true) (scan (rows s')))) t (rows s))
    as [rest [Hl Hrest]].
  - rewrite sort_desc_perm, filter_all, (Hscan (rows s')). cbn [rows s'].
    symmetry. apply Permutation_cons_append.
  - apply sort_desc_sorted.
  - intros r Hr. cbn. exact (Hnew r Hr).
  - exists t, s', rest. split; [exact Hcreate|]. split; [|exact Hrest].
    unfold get_all_tasks. rewrite select_result, Hl. reflexivity.
Qed.

Lemma newest_task_listed_first_witness :
  exists t s' rest,
    create 3000 3001 "Call the bank" None None None mixed_db = (Ok t, s') /\
    get_all_tasks (@rev Task) s' = (Ok (t :: rest), s') /\
    Permutation rest (rows mixed_db).
Proof.
  apply (newest_task_listed_first (@rev Task) mixed_db 3000 3001 "Call the bank"
                                  None None None rev_scans_all).
  - cbn. lia.
  - cbn. lia.
  - intros r [<-|[<-|[]]]; cbn; lia.
Defined.

(** ** [str.strip] *)

Lemma lstrip_head s c r : lstrip s = String c r -> isspace c = false.
Proof.
  induction s as [|a s IH]; cbn [lstrip]; [discriminate|].
  destruct (isspace a) eqn:E; [exact IH|].
  intros H. injection H as <- _. exact E.
Qed.

Lemma lstrip_nonspace c r : isspace c = false -> lstrip (String c r) = String c r.
Proof.
  intros E. cbn [lstrip]. rewrite E. reflexivity.
Qed.

Lemma rstrip_nonspace c r : isspace c = false -> rstrip (String c r) = String c (rstrip r).
Proof.
  intros E. cbn [rstrip]. destruct (rstrip r); [rewrite E|]; reflexivity.
Qed.

Lemma rstrip_cons c s :
  rstrip (String c s) =
  match rstrip s with
  | EmptyString => if isspace c then EmptyString else String c EmptyString
  | String a r => String c (String a r)
  end.
Proof. reflexivity. Qed.

Lemma rstrip_idempotent s : rstrip (rstrip s) = rstrip s.
Proof.
  induction s as [|c s IH]; [reflexivity|]. rewrite rstrip_cons.
  destruct (rstrip s) as [|a r] eqn:E.
  - destruct (isspace c) eqn:Ec; [reflexivity|].
    rewrite rstrip_cons. cbn [rstrip]. rewrite Ec. reflexivity.
  - rewrite rstrip_cons, IH. reflexivity.
Qed.

Lemma strip_idempotent s : strip (strip s) = strip s.
Proof.
  unfold strip. destruct (lstrip s) as [|c r] eqn:E; [reflexivity|].
  pose proof (lstrip_head s c r E) as Ec.
  rewrite (rstrip_nonspace c r Ec), (lstrip_nonspace c _ Ec), (rstrip_nonspace c _ Ec).
  rewrite rstrip_idempotent. reflexivity.
Qed.

Lemma lstrip_blank s : blank s = true -> lstrip s = EmptyString.
Proof.
  unfold blank. induction s as [|c s IH]; cbn [list_ascii_of_string forallb lstrip];
    [reflexivity|].
  intros H. apply andb_prop in H as [Hc Hs]. rewrite Hc. exact (IH Hs).
Qed.

Lemma strip_blank s : blank s = true <-> strip s = EmptyString.
Proof.
  split.
  - intros H. unfold strip. rewrite (lstrip_blank s H). reflexivity.
  - unfold strip, blank.
    induction s as [|c s IH]; cbn [list_ascii_of_string forallb lstrip]; [reflexivity|].
    destruct (isspace c) eqn:Ec; [exact IH|].
    rewrite (rstrip_nonspace c s Ec). discriminate.
Qed.

Lemma nonempty_false s : nonempty s = false <-> s = EmptyString.
Proof.
  destruct s; split; intros H; try reflexivity; discriminate.
Qed.

(** ** The task list of the page *)

Lemma desc_by_filter (key : Task -> Z) (p : Task -> bool) l :
  desc_by key l -> desc_by key (filter p l).
Proof.
  unfold desc_by. induction 1 as [|x l Hl IH Hx]; cbn [filter]; [constructor|].
  destruct (p x); [|exact IH]. constructor; [exact IH|].
  rewrite Forall_forall in *. intros y Hy. apply filter_In in Hy. apply Hx, Hy.
Qed.

Lemma pending_completed_perm (l : list Task) :
  Permutation (filter (fun t => negb (completed t)) l ++ filter (fun t => completed t) l) l.
Proof.
  induction l as [|x l IH]; cbn [filter]; [reflexivity|].
  destruct (completed x); cbn [negb app].
  - symmetry. apply Permutation_cons_app. symmetry. exact IH.
  - apply perm_skip, IH.
Qed.

(** X10: [refresh_task_list] shows the empty state exactly when the table
    has no row; otherwise its two groups hold every stored task once, the
    pending group only tasks that are not completed and the completed
    group only completed ones, each group newest first by [created_at],
    and the two counts add up to the number of rows. *)
Theorem refresh_groups_partition :
  forall (scan : list Task -> list Task) (s : Db),
    scans_all scan ->
    match refresh_task_list scan s with
    | view_empty => rows s = []
    | view_groups ps cs =>
        rows s <> [] /\
        Permutation (ps ++ cs) (rows s) /\
        Forall (fun t => completed t = false) ps /\
        Forall (fun t => completed t = true) cs /\
        desc_by created_at ps /\
        desc_by created_at cs /\
        (List.length ps + List.length cs = List.length (rows s))%nat
    | view_error _ => False
    end.
Proof.
  intros scan s Hscan. unfold refresh_task_list, get_all_tasks.
  rewrite select_result, filter_all.
  pose proof (Permutation_trans (sort_desc_perm created_at (scan (rows s)))
                                (Hscan (rows s))) as Hp.
  pose proof (sort_desc_sorted created_at (scan (rows s))) as Hs.
  destruct (sort_desc created_at (scan (rows s))) as [|x l] eqn:E.
  - apply Permutation_nil. exact Hp.
  - assert (Permutation
              (filter (fun t => negb (completed t)) (x :: l)
               ++ filter (fun t => completed t) (x :: l)) (rows s)) as Hall.
    { rewrite pending_completed_perm. exact Hp. }
    split.
    { intros Hnil. rewrite Hnil in Hp. apply Permutation_sym, Permutation_nil in Hp.
      discriminate. }
    split; [exact Hall|]. split.
    { apply Forall_forall. intros t Ht. apply filter_In in Ht as [_ Ht].
      destruct (completed t); [discriminate | reflexivity]. }
    split.
    { apply Forall_forall. intros t Ht. apply filter_In in Ht as [_ Ht]. exact Ht. }
    split; [apply desc_by_filter, Hs|]. split; [apply desc_by_filter, Hs|].
    rewrite <- length_app. apply Permutation_length, Hall.
Qed.

Lemma refresh_groups_partition_witness :
  refresh_task_list insertion_order mixed_db = view_groups [sample_task] [done_task] /\
  Permutation ([sample_task] ++ [done_task]) (rows mixed_db).
Proof.
  split; [reflexivity|].
  pose proof (refresh_groups_partition insertion_order mixed_db insertion_order_scans_all)
    as H.
  change (refresh_task_list insertion_order mixed_db)
    with (view_groups [sample_task] [done_task]) in H.
  exact (proj1 (proj2 H)).
Defined.

(** X11: the groups of the page and the listings of the service hold the
    same tasks, for any two read orders of the engine: the pending group
    is a rearrangement of [get_pending_tasks] and both are in descending
    order of [created_at]; the completed group is a rearrangement of
    [get_completed_tasks], the page ordering it by [created_at] where the
    service orders it by [updated_at]. *)
Theorem refresh_groups_match_service :
  forall (scan1 scan2 : list Task -> list Task) (s : Db) (ps cs : list Task),
    scans_all scan1 ->
    scans_all scan2 ->
    refresh_task_list scan1 s = view_groups ps cs ->
    exists ps' cs',
      get_pending_tasks scan2 s = (Ok ps', s) /\
      get_completed_tasks scan2 s = (Ok cs', s) /\
      Permutation ps ps' /\
      Permutation cs cs' /\
      desc_by created_at ps /\ desc_by created_at ps' /\
      desc_by created_at cs /\ desc_by updated_at cs'.
Proof.
  intros scan1 scan2 s ps cs H1 H2 Hview.
  unfold refresh_task_list, get_all_tasks in Hview.
  rewrite select_result, filter_all in Hview.
  pose proof (Permutation_trans (sort_desc_perm created_at (scan1 (rows s)))
                                (H1 (rows s))) as Hp.
  pose proof (sort_desc_sorted created_at (scan1 (rows s))) as Hs.
  set (tasks := sort_desc created_at (scan1 (rows s))) in *.
  assert (ps = filter (fun t => negb (completed t)) tasks /\
          cs = filter (fun t => completed t) tasks) as [-> ->].
  { destruct tasks as [|x l]; [discriminate|].
    injection Hview as <- <-. split; reflexivity. }
  clear Hview.
  eexists. eexists.
  split; [apply select_result|]. split; [apply select_result|].
  split.
  { etransitivity; [apply (filter_perm _ _ _ Hp)|].
    etransitivity; [|symmetry; apply (select_perm scan2 _ created_at s H2)].
    apply Permutation_refl'. apply filter_ext. intros t.
    destruct (completed t); reflexivity. }
  split.
  { etransitivity; [apply (filter_perm _ _ _ Hp)|].
    etransitivity; [|symmetry; apply (select_perm scan2 _ updated_at s H2)].
    apply Permutation_refl'. apply filter_ext. reflexivity. }
  split; [apply desc_by_filter, Hs|]. split; [apply sort_desc_sorted|].
  split; [apply desc_by_filter, Hs | apply sort_desc_sorted].
Qed.

Lemma refresh_groups_match_service_witness :
  exists ps' cs',
    get_pending_tasks (@rev Task) mixed_db = (Ok ps', mixed_db) /\
    get_completed_tasks (@rev Task) mixed_db = (Ok cs', mixed_db) /\
    Permutation [sample_task] ps' /\
    Permutation [done_task] cs'.
Proof.
  destruct (refresh_groups_match_service insertion_order (@rev Task) mixed_db
              [sample_task] [done_task] insertion_order_scans_all rev_scans_all eq_refl)
    as (ps' & cs' & H1 & H2 & H3 & H4 & _).
  exists ps', cs'. split; [exact H1|]. split; [exact H2|]. split; [exact H3 | exact H4].
Defined.

(** ** The form for a new task *)

Lemma create_from_form nc nu ttl d p due s :
  (1 <= String.length ttl <= 200)%nat ->
  (String.length d <= 1000)%nat ->
  create nc nu ttl (Some d) (Some p) due s
  = (Ok (mkTask (Some (next_id s)) ttl d false p due nc nu),
     {| rows := rows s ++ [mkTask (Some (next_id s)) ttl d false p due nc nu];
        next_id := next_id s + 1 |}).
Proof.
  intros Ht Hd. unfold create, bind, lift, TaskCreate_init.
  assert (title_ok ttl = true) as -> by (apply str_length_ok_spec; exact Ht).
  assert (description_ok d = true) as -> by (apply str_length_ok_spec; lia).
  reflexivity.
Qed.

Lemma create_raise nc nu ttl dkw pkw due s e s' :
  create nc nu ttl dkw pkw due s = (Raise e, s') -> s' = s.
Proof.
  unfold create, bind, lift.
  destruct (TaskCreate_init ttl dkw pkw due) as [d|e0]; cbn; intros H.
  - discriminate.
  - injection H as _ <-. reflexivity.
Qed.

Lemma nonempty_of_length s : (1 <= String.length s)%nat -> nonempty s = true.
Proof.
  destruct s; cbn; [lia | reflexivity].
Qed.

(** X12: when the title field holds nothing but whitespace,
    [add_new_task] asks for a title and leaves the table as it was,
    without calling the service. *)
Theorem add_new_task_blank_title :
  forall (fromisoformat : string -> option date) (now_created now_updated : datetime)
         (title_value description_value : string) (priority_value : TaskPriority)
         (due_value : date_value) (s : Db),
    blank title_value = true ->
    add_new_task fromisoformat now_created now_updated title_value description_value
                 priority_value due_value s
    = (note_enter_title, s).
Proof.
  intros f nc nu tv dv p due s Hb. unfold add_new_task.
  apply strip_blank in Hb. rewrite Hb. reflexivity.
Qed.

Lemma add_new_task_blank_title_witness :
  add_new_task (fun _ => None) 10 11 "   " "notes" HIGH date_unset sample_db
  = (note_enter_title, sample_db).
Proof.
  apply (add_new_task_blank_title (fun _ => None) 10 11 "   " "notes" HIGH date_unset
                                  sample_db).
  reflexivity.
Defined.

(** X13: when the stripped title has 1 to 200 characters, the stripped
    description at most 1000 and the due date field is empty, a date, or a
    text that parses, [add_new_task] reports the task as added and appends
    one row: title and description as stripped, the chosen priority, the
    parsed due date, not completed, with the next id of the store. *)
Theorem add_new_task_stores_stripped_fields :
  forall (fromisoformat : string -> option date) (now_created now_updated : datetime)
         (title_value description_value : string) (priority_value : TaskPriority)
         (due_value : date_value) (due : option date) (s : Db),
    (1 <= String.length (strip title_value) <= 200)%nat ->
    (String.length (strip description_value) <= 1000)%nat ->
    parse_due_date fromisoformat due_value = inr due ->
    exists t s',
      add_new_task fromisoformat now_created now_updated title_value description_value
                   priority_value due_value s
      = (note_added (strip title_value), s') /\
      rows s' = rows s ++ [t] /\
      id t = Some (next_id s) /\
      title t = strip title_value /\
      description t = strip description_value /\
      completed t = false /\
      priority t = priority_value /\
      due_date t = due /\
      stripped (title t) /\ stripped (description t).
Proof.
  intros f nc nu tv dv p dval due s Ht Hd Hdue. unfold add_new_task.
  rewrite (nonempty_of_length (strip tv)) by lia. cbn [negb].
  rewrite Hdue, (create_from_form nc nu (strip tv) (strip dv) p due s Ht Hd).
  eexists. eexists. split; [reflexivity|]. cbn.
  repeat (split; [reflexivity|]). split; apply strip_idempotent.
Qed.

Lemma add_new_task_stores_stripped_fields_witness :
  exists t s',
    add_new_task (fun _ => None) 10 11 "  Buy milk " " 2 litres" HIGH (date_obj 20089)
                 empty_db
    = (note_added "Buy milk", s') /\
    rows s' = [t] /\ title t = "Buy milk"%string /\ description t = "2 litres"%string.
Proof.
  destruct (add_new_task_stores_stripped_fields (fun _ => None) 10 11 "  Buy milk "
              " 2 litres" HIGH (date_obj 20089) (Some 20089) empty_db)
    as (t & s' & H1 & H2 & _ & H3 & H4 & _).
  - vm_compute. lia.
  - vm_compute. lia.
  - reflexivity.
  - exists t, s'. split; [exact H1|]. split; [exact H2|]. split; [exact H3 | exact H4].
Defined.

(** X14: [add_new_task] changes the table only when it reports the task as
    added: with any other notice (a title missing, a date that does not
    parse, a title or description that is too long) the table is the one
    before the call. *)
Theorem add_new_task_changes_only_on_success :
  forall (fromisoformat : string -> option date) (now_created now_updated : datetime)
         (title_value description_value : string) (priority_value : TaskPriority)
         (due_value : date_value) (s : Db),
    (forall x, fst (add_new_task fromisoformat now_created now_updated title_value
                                 description_value priority_value due_value s)
               <> note_added x) ->
    snd (add_new_task fromisoformat now_created now_updated title_value
                      description_value priority_value due_value s) = s.
Proof.
  intros f nc nu tv dv p dval s. unfold add_new_task.
  destruct (negb (nonempty (strip tv))); [reflexivity|].
  destruct (parse_due_date f dval) as [e|due]; [reflexivity|].
  destruct (create nc nu (strip tv) (Some (strip dv)) (Some p) due s) as [[t|e] s'] eqn:E;
    cbn [fst snd]; intros H.
  - exfalso. exact (H (title t) eq_refl).
  - exact (create_raise _ _ _ _ _ _ _ _ _ E).
Qed.

Lemma add_new_task_changes_only_on_success_witness :
  snd (add_new_task (fun _ => None) 10 11 (long_string 201) "" LOW date_unset sample_db)
  = sample_db.
Proof.
  apply (add_new_task_changes_only_on_success (fun _ => None) 10 11 (long_string 201)
           "" LOW date_unset sample_db).
  intros x. vm_compute. discriminate.
Defined.

(** ** The edit dialog *)

Lemma update_from_form now k t x d p due s :
  find (has_id k) (rows s) = Some t ->
  (1 <= String.length x <= 200)%nat ->
  (String.length d <= 1000)%nat ->
  update now k (Some (Some x)) (Some (Some d)) None (Some (Some p)) (Some due) s
  = (Ok (Some (mkTask (id t) x d (completed t) p due (created_at t) now)),
     {| rows := replace_row k (mkTask (id t) x d (completed t) p due (created_at t) now)
                            (rows s);
        next_id := next_id s |}).
Proof.
  intros Hf Hx Hd.
  rewrite update_validated.
  - apply (update_task_found now k _ s t
             (mkTask (id t) x d (completed t) p due (created_at t) (updated_at t)) Hf).
    rewrite setattr_all_dump by discriminate. reflexivity.
  - intros x0 E. injection E as <-. exact Hx.
  - intros d0 E. injection E as <-. exact Hd.
Qed.

(** X15: saving the edit dialog of an existing task, with a stripped
    title of 1 to 200 characters, a stripped description of at most 1000
    and a due date field that is empty or parses, reports success and
    stores the title and description as stripped, the chosen priority and
    the parsed due date (none when the field is empty); [completed], [id]
    and [created_at] keep their values and [updated_at] is the clock
    reading. *)
Theorem edit_save_overwrites_form_fields :
  forall (fromisoformat : string -> option date) (now : datetime) (k : Z) (t : Task)
         (title_value description_value : string) (priority_value : TaskPriority)
         (due_value : date_value) (due : option date) (s : Db),
    get_task k s = (Ok (Some t), s) ->
    (1 <= String.length (strip title_value) <= 200)%nat ->
    (String.length (strip description_value) <= 1000)%nat ->
    parse_due_date fromisoformat due_value = inr due ->
    exists t' s',
      edit_task_dialog fromisoformat now k chose_save title_value description_value
                       priority_value due_value s
      = (Some note_updated, s') /\
      get_task k s' = (Ok (Some t'), s') /\
      title t' = strip title_value /\
      description t' = strip description_value /\
      priority t' = priority_value /\
      due_date t' = due /\
      completed t' = completed t /\
      id t' = id t /\
      created_at t' = created_at t /\
      updated_at t' = now.
Proof.
  intros f now k t tv dv p dval due s Hget Ht Hd Hdue.
  pose proof Hget as Hf. apply get_task_found in Hf.
  eexists. eexists. split.
  { unfold edit_task_dialog. rewrite Hget.
    rewrite (nonempty_of_length (strip tv)) by lia. cbn [negb].
    rewrite Hdue, (update_from_form now k t (strip tv) (strip dv) p due s Hf Ht Hd).
    reflexivity. }
  split.
  { apply get_task_found. cbn [rows]. apply (find_replaced k t); [exact Hf | reflexivity]. }
  cbn. repeat split; reflexivity.
Qed.

(** Saving with the date field left empty removes the due date. *)
Lemma edit_save_overwrites_form_fields_witness :
  exists t' s',
    edit_task_dialog (fun _ => None) 2000 2 chose_save " Ship release" "" URGENT
                     date_unset mixed_db
    = (Some note_updated, s') /\
    due_date t' = None /\ completed t' = true /\ title t' = "Ship release"%string.
Proof.
  destruct (edit_save_overwrites_form_fields (fun _ => None) 2000 2 done_task
              " Ship release" "" URGENT date_unset None mixed_db)
    as (t' & s' & H1 & _ & H2 & _ & _ & H3 & H4 & _).
  - reflexivity.
  - vm_compute. lia.
  - vm_compute. lia.
  - reflexivity.
  - exists t', s'. split; [exact H1|]. split; [exact H3|]. split; [exact H4 | exact H2].
Defined.

Lemma edit_table f now k ch tv dv p dval s :
  snd (edit_task_dialog f now k ch tv dv p dval s) = s \/
  exists due,
    snd (edit_task_dialog f now k ch tv dv p dval s)
    = step (call_update now k (Some (Some (strip tv))) (Some (Some (strip dv))) None
                        (Some (Some p)) (Some due)) s.
Proof.
  unfold edit_task_dialog, get_task, session_get.
  destruct (find (has_id k) (rows s)) as [t|]; [|left; reflexivity].
  destruct ch; try (left; reflexivity).
  destruct (negb (nonempty (strip tv))); [left; reflexivity|].
  destruct (parse_due_date f dval) as [e|due]; [left; reflexivity|].
  right. exists due. cbn [step].
  destruct (update now k (Some (Some (strip tv))) (Some (Some (strip dv))) None
                   (Some (Some p)) (Some due) s) as [[[t'|]|e] s']; reflexivity.
Qed.

Lemma form_update_row now k x d p due s :
  snd (update now k (Some (Some x)) (Some (Some d)) None (Some (Some p)) (Some due) s) = s \/
  exists t,
    find (has_id k) (rows s) = Some t /\
    title_ok x = true /\ description_ok d = true /\
    snd (update now k (Some (Some x)) (Some (Some d)) None (Some (Some p)) (Some due) s)
    = {| rows := replace_row k (mkTask (id t) x d (completed t) p due (created_at t) now)
                             (rows s);
         next_id := next_id s |}.
Proof.
  destruct (update_table now k (Some (Some x)) (Some (Some d)) None (Some (Some p))
                         (Some due) s)
    as [H|(t & t1 & u & Hu & Hf & Hset & H)]; [left; exact H|].
  right. exists t. unfold TaskUpdate_init in Hu. cbn [opt_field_ok] in Hu.
  destruct (title_ok x) eqn:Ex; [|discriminate].
  destruct (description_ok d) eqn:Ed; [|discriminate].
  cbn [andb] in Hu. injection Hu as <-.
  rewrite setattr_all_dump in Hset by discriminate. injection Hset as <-.
  split; [exact Hf|]. split; [reflexivity|]. split; [reflexivity|]. exact H.
Qed.

(** X16: whatever is entered in the edit dialog and however it is closed,
    every stored task is still stored afterwards with the same
    [completed], [id] and [created_at]: the dialog never deletes a task
    and never changes a completion state. *)
Theorem edit_never_touches_completion :
  forall (fromisoformat : string -> option date) (now : datetime) (k : Z)
         (choice : dialog_result) (title_value description_value : string)
         (priority_value : TaskPriority) (due_value : date_value) (s : Db)
         (j : Z) (t : Task),
    fst (get_task j s) = Ok (Some t) ->
    exists t',
      fst (get_task j (snd (edit_task_dialog fromisoformat now k choice title_value
                              description_value priority_value due_value s)))
      = Ok (Some t') /\
      completed t' = completed t /\ id t' = id t /\ created_at t' = created_at t.
Proof.
  intros f now k ch tv dv p dval s j t Hget.
  unfold get_task, session_get in *. cbn [fst] in *. injection Hget as Hf.
  destruct (edit_table f now k ch tv dv p dval s) as [ -> | [due -> ] ].
  { exists t. rewrite Hf. repeat split; reflexivity. }
  cbn [step].
  destruct (form_update_row now k (strip tv) (strip dv) p due s)
    as [ -> | (t0 & Hf0 & _ & _ & -> ) ].
  { exists t. rewrite Hf. repeat split; reflexivity. }
  cbn [rows]. pose proof (find_has_id_some _ _ _ Hf0) as [_ Hid0].
  destruct (Z.eq_dec j k) as [->|Hjk].
  - rewrite find_replace_row by (apply has_id_true; exact Hid0).
    rewrite Hf0 in *. injection Hf as <-.
    eexists. split; [reflexivity|]. repeat split; reflexivity.
  - rewrite find_replace_row_other; [| exact Hjk | exact Hid0]. rewrite Hf.
    exists t. repeat split; reflexivity.
Qed.

Lemma edit_never_touches_completion_witness :
  exists t',
    fst (get_task 2 (snd (edit_task_dialog (fun _ => None) 2000 2 chose_save "Ship it"
                            "today" LOW date_unset mixed_db)))
    = Ok (Some t') /\
    completed t' = true.
Proof.
  destruct (edit_never_touches_completion (fun _ => None) 2000 2 chose_save "Ship it"
              "today" LOW date_unset mixed_db 2 done_task eq_refl)
    as (t' & H1 & H2 & _).
  exists t'. split; [exact H1 | exact H2].
Defined.

(** ** Invariants of every session on the page *)

Lemma ui_step_call f e s :
  ui_step f e s = s \/ exists c, form_call c /\ ui_step f e s = step c s.
Proof.
  destruct e as [nc nu tv dv p dval|now k|ch k|now k ch tv dv p dval]; cbn [ui_step].
  - unfold add_new_task.
    destruct (negb (nonempty (strip tv))); [left; reflexivity|].
    destruct (parse_due_date f dval) as [err|due]; [left; reflexivity|].
    right. exists (call_create nc nu (strip tv) (Some (strip dv)) (Some p) due).
    split; [split; apply strip_idempotent|]. cbn [step].
    destruct (create nc nu (strip tv) (Some (strip dv)) (Some p) due s) as [[t|err] s'];
      reflexivity.
  - right. exists (call_toggle now k). split; [exact I|]. cbn [step].
    unfold toggle_task_completion.
    destruct (toggle_completed now k s) as [[[t|]|err] s']; reflexivity.
  - destruct ch; try (left; reflexivity).
    right. exists (call_delete k). split; [exact I|]. cbn [step].
    unfold delete_task_confirm.
    destruct (delete_task k s) as [[[|]|err] s']; reflexivity.
  - destruct (edit_table f now k ch tv dv p dval s) as [H|[due H]]; [left; exact H|].
    right. eexists. split; [|exact H]. split; apply strip_idempotent.
Qed.

Lemma clean_step c s :
  form_call c -> Forall clean_task (rows s) -> Forall clean_task (rows (step c s)).
Proof.
  intros Hc Hs.
  destruct c as [nc nu ttl dkw pkw due|now k tkw dkw ckw pkw duekw|now k|k]; cbn [step].
  - destruct dkw as [d|]; [|destruct Hc]. destruct Hc as [Ht Hd].
    destruct (create_table nc nu ttl (Some d) pkw due s) as [ -> | [d0 [Hd0 -> ] ] ];
      [exact Hs|].
    cbn [rows]. apply Forall_app. split; [exact Hs|]. constructor; [|constructor].
    unfold TaskCreate_init in Hd0.
    destruct (title_ok ttl && description_ok d)%bool; [|discriminate].
    injection Hd0 as <-. split; assumption.
  - destruct tkw as [[x|]|]; try destruct Hc.
    destruct dkw as [[d|]|]; try destruct Hc.
    destruct ckw as [c|]; try destruct Hc.
    destruct pkw as [[p|]|]; try destruct Hc.
    destruct duekw as [due|]; try destruct Hc.
    destruct (form_update_row now k x d p due s) as [ -> | (t & _ & _ & _ & -> ) ];
      [exact Hs|].
    cbn [rows]. unfold replace_row. apply Forall_map.
    eapply Forall_impl; [|exact Hs]. intros r Hr.
    destruct (has_id k r); [split; assumption | exact Hr].
  - destruct (toggle_table now k s) as [ -> | (t & Hf & -> ) ]; [exact Hs|].
    cbn [rows]. unfold replace_row. apply Forall_map.
    apply find_has_id_some in Hf as [Hin _].
    rewrite Forall_forall in Hs. apply Forall_forall. intros r Hr.
    destruct (has_id k r); [exact (Hs t Hin) | exact (Hs r Hr)].
  - destruct (delete_table k s) as [ [_ -> ] | -> ]; [exact Hs|].
    cbn [rows]. rewrite Forall_forall in *. intros r Hr.
    apply filter_In in Hr. apply Hs, Hr.
Qed.

(** X17: in every table reached from the empty one through the handlers
    of the page (adding, toggling, deleting, editing, with any input), the
    ids are unique, every title has 1 to 200 characters and every
    description at most 1000, and no title or description begins or ends
    with whitespace. *)
Theorem page_sessions_keep_tables_clean :
  forall (fromisoformat : string -> option date) (es : list ui_event),
    wf (ui_run fromisoformat es empty_db) /\
    Forall (fun t => (1 <= String.length (title t) <= 200)%nat /\
                     (String.length (description t) <= 1000)%nat /\
                     strip (title t) = title t /\
                     strip (description t) = description t)
           (rows (ui_run fromisoformat es empty_db)).
Proof.
  intros f es.
  assert (forall s, wf s /\ rows_valid s /\ Forall clean_task (rows s) ->
                    wf (ui_run f es s) /\ rows_valid (ui_run f es s) /\
                    Forall clean_task (rows (ui_run f es s))) as H.
  { unfold ui_run. induction es as [|e es IH]; intros s Hs; cbn [fold_left]; [exact Hs|].
    apply IH. destruct Hs as (Hw & Hv & Hc).
    destruct (ui_step_call f e s) as [ -> | (c & Hform & -> ) ].
    - split; [exact Hw|]. split; [exact Hv | exact Hc].
    - split; [apply wf_step, Hw|]. split; [apply rows_valid_step, Hv|].
      apply clean_step; assumption. }
  destruct (H empty_db) as (Hw & Hv & Hc).
  { split; [exact wf_empty_db|]. split; constructor. }
  split; [exact Hw|].
  unfold rows_valid in Hv. rewrite Forall_forall in *. intros t Ht.
  destruct (Hv t Ht) as [H1 H2]. destruct (Hc t Ht) as [H3 H4].
  apply str_length_ok_spec in H1, H2. repeat split; try assumption; lia.
Qed.
